(** * pdm.project.config: the layered configuration store

  A shallow embedding of [src/pdm/project/config.py] (class [Config]) and
  the properties of its merge, flatten, validate and persist logic.

  Modelling choices, all taken from the source:
  - a Python [dict] is an insertion-ordered association list without
    duplicate keys.  Order is kept because the source depends on it: the
    keys named by the [ValueError] of [save_config] are joined in the
    iteration order of [_dirty], and the loops of [get_item] and of
    [save_config] visit entries in insertion order, which decides who wins
    when two entries collide;
  - a parsed TOML document is a tree whose inner nodes are tables (the
    values that expose [items]) and whose leaves are scalars;
  - the file system maps a path to the regular file or directory found
    there, if any; [tomlkit.parse] and [tomlkit.dumps], [Path.home()],
    [appdirs.user_cache_dir] and [get_pypi_source] are parameters;
  - an operation is a function of the world (the object's fields and the
    file system) that returns a value or raises, together with the world
    it leaves behind. *)

From Stdlib Require Import String Ascii List Bool ZArith Lia FinFun.
Import ListNotations.
Local Open Scope string_scope.
Local Open Scope list_scope.

Set Implicit Arguments.
Set Warnings "-register-all".

(** ** Python strings *)

Module PyStr.

Definition dot : ascii := "."%char.

(** [c.lower()] on one character: [A-Z] are moved to [a-z]. *)
Definition lower_ascii (c : ascii) : ascii :=
  let n := nat_of_ascii c in
  if (65 <=? n)%nat && (n <=? 90)%nat then ascii_of_nat (n + 32) else c.

(** [s.lower()].  A text is the sequence of its UTF-8 bytes; bytes outside
    [A-Z] stay.  Python lowers other letters too, but no character outside
    ASCII lowers to a letter of ["true"] or ["false"], so the two tests of
    [__setitem__] come out the same. *)
Fixpoint lower (s : string) : string :=
  match s with
  | EmptyString => EmptyString
  | String c r => String (lower_ascii c) (lower r)
  end.

(** [s.split(".")]: never empty, one more part than there are dots. *)
Fixpoint split_dot (s : string) : list string :=
  match s with
  | EmptyString => [EmptyString]
  | String c r =>
      if Ascii.eqb c dot then EmptyString :: split_dot r
      else match split_dot r with
           | h :: t => String c h :: t
           | [] => [String c EmptyString]
           end
  end.

(** [sep.join(l)] *)
Fixpoint join (sep : string) (l : list string) : string :=
  match l with
  | [] => EmptyString
  | [x] => x
  | x :: r => x ++ sep ++ join sep r
  end.

(** ["." not in s] *)
Fixpoint dot_free (s : string) : bool :=
  match s with
  | EmptyString => true
  | String c r => negb (Ascii.eqb c dot) && dot_free r
  end.

(** [f"{k}.{sub_k}"] *)
Definition dotted (k sub_k : string) : string := k ++ "." ++ sub_k.

End PyStr.

(** ** Python dictionaries *)

Module PyDict.

Definition dict (V : Type) : Type := list (string * V).

Section Ops.
Context {V : Type}.

(** [d.get(k)]; [None] stands for the [KeyError] of [d[k]]. *)
Fixpoint get (k : string) (d : dict V) : option V :=
  match d with
  | [] => None
  | (k', v) :: r => if String.eqb k k' then Some v else get k r
  end.

(** [k in d] *)
Definition contains (k : string) (d : dict V) : bool :=
  match get k d with Some _ => true | None => false end.

(** [d[k] = v]: an existing key keeps its position, a new one goes last. *)
Fixpoint set (k : string) (v : V) (d : dict V) : dict V :=
  match d with
  | [] => [(k, v)]
  | (k', v') :: r =>
      if String.eqb k k' then (k, v) :: r else (k', v') :: set k v r
  end.

(** [d.update(other)] *)
Definition update (d other : dict V) : dict V :=
  fold_left (fun acc kv => set (fst kv) (snd kv) acc) other d.

(** [list(d)], the keys in iteration order. *)
Definition keys (d : dict V) : list string := map fst d.

End Ops.

End PyDict.

Import PyStr PyDict.

(** ** Values, documents and exceptions *)

(** The scalars of a configuration file.  Numbers stand for every scalar
    that is neither text nor a boolean: the store never looks inside them. *)
Inductive value : Type :=
| VStr (s : string)
| VBool (b : bool)
| VInt (n : Z).

(** What [tomlkit.parse] returns, seen through [getattr(v, "items", None)]:
    a value with [items] is a table, anything else is a leaf. *)
Inductive doc : Type :=
| Leaf (v : value)
| Table (items : list (string * doc)).

Definition table : Type := dict doc.

Inductive exn : Type :=
| NoConfigError (key : string)
| ValueError (msg : string)
| NotImplementedError
| KeyError (key : string)
| TypeError
| AttributeError
| TOMLParseError
| FileNotFoundError
| FileExistsError
| NotADirectoryError
| IsADirectoryError.

Inductive outcome (A : Type) : Type :=
| Return (a : A)
| Raise (e : exn).
Arguments Raise {A} e.

Definition obind {A B : Type} (x : outcome A) (f : A -> outcome B) : outcome B :=
  match x with
  | Return a => f a
  | Raise e => Raise e
  end.

(** ** The flattening walk of [load_config] *)

Definition prefix_entry (k : string) (e : string * value) : string * value :=
  (dotted k (fst e), snd e).

(** [get_item] applied to the items of a table node.  The inner loop is the
    [for k, v in sub_data.items()] of the source with its [result]. *)
Fixpoint get_item_node (d : doc) : dict value :=
  match d with
  | Leaf _ => []
  | Table items =>
      (fix loop (l : list (string * doc)) (result : dict value) : dict value :=
         match l with
         | [] => result
         | (k, v) :: rest =>
             loop rest
               (update result
                  match v with
                  | Table _ => map (prefix_entry k) (get_item_node v)
                  | Leaf x => [(k, x)]
                  end)
         end) items []
  end.

Definition get_item (sub_data : table) : dict value :=
  get_item_node (Table sub_data).

(** What one item [k, v] of a table adds to [result]. *)
Definition flat_entries (k : string) (v : doc) : dict value :=
  match v with
  | Table sub => map (prefix_entry k) (get_item sub)
  | Leaf x => [(k, x)]
  end.

Definition entries_of (kv : string * doc) : dict value :=
  flat_entries (fst kv) (snd kv).

(** ** The dotted-key splitting of [save_config] *)

(** The body of the outer loop, for one [key, value]: walk [parts] with
    [setdefault], then assign at [last].  A leaf met on the way has no
    [setdefault] ([AttributeError]) and cannot be assigned into
    ([TypeError]). *)
Fixpoint assign_path (parts : list string) (last : string) (v : value)
  (temp : table) : outcome table :=
  match parts with
  | [] => Return (set last (Leaf v) temp)
  | part :: parts' =>
      match get part temp with
      | None =>
          obind (assign_path parts' last v [])
                (fun sub => Return (set part (Table sub) temp))
      | Some (Table sub) =>
          obind (assign_path parts' last v sub)
                (fun sub' => Return (set part (Table sub') temp))
      | Some (Leaf _) =>
          Raise match parts' with [] => TypeError | _ :: _ => AttributeError end
      end
  end.

Definition assign_key (toml_data : table) (kv : string * value) : outcome table :=
  let l := split_dot (fst kv) in
  assign_path (removelast l) (List.last l EmptyString) (snd kv) toml_data.

(** [toml_data] after the loop over [data.items()]. *)
Fixpoint unflatten_from (toml_data : table) (data : dict value) : outcome table :=
  match data with
  | [] => Return toml_data
  | kv :: rest => obind (assign_key toml_data kv) (fun t => unflatten_from t rest)
  end.

Definition unflatten (data : dict value) : outcome table := unflatten_from [] data.

(** ** Equality of Python values: [==] on dictionaries ignores order *)

Definition value_eqb (a b : value) : bool :=
  match a, b with
  | VStr s, VStr t => String.eqb s t
  | VBool x, VBool y => Bool.eqb x y
  | VInt n, VInt m => Z.eqb n m
  | VBool x, VInt m => Z.eqb (if x then 1 else 0) m
  | VInt n, VBool y => Z.eqb n (if y then 1 else 0)
  | _, _ => false
  end.

Fixpoint doc_eqb (a b : doc) : bool :=
  match a, b with
  | Leaf x, Leaf y => value_eqb x y
  | Table ta, Table tb =>
      Nat.eqb (length ta) (length tb)
      && (fix all (l : list (string * doc)) : bool :=
            match l with
            | [] => true
            | (k, x) :: r =>
                match get k tb with
                | Some y => doc_eqb x y
                | None => false
                end && all r
            end) ta
  | _, _ => false
  end.

Definition table_eqb (a b : table) : bool := doc_eqb (Table a) (Table b).

(** Equality of two texts up to the case of their letters, character by
    character: what "case-insensitively equal" says. *)
Fixpoint caseless_eqb (s t : string) : bool :=
  match s, t with
  | EmptyString, EmptyString => true
  | String a s', String b t' =>
      Ascii.eqb (lower_ascii a) (lower_ascii b) && caseless_eqb s' t'
  | _, _ => false
  end.

(** ** Paths and the file system *)

(** A [pathlib.Path] is the list of its components below the root. *)
Definition path : Type := list string.

(** [p / name] *)
Definition child (p : path) (name : string) : path := p ++ [name].

(** [p.parent] *)
Definition parent (p : path) : path := removelast p.

Fixpoint path_eqb (p q : path) : bool :=
  match p, q with
  | [], [] => true
  | a :: p', b :: q' => String.eqb a b && path_eqb p' q'
  | _, _ => false
  end.

Inductive node : Type :=
| File (text : string)
| Dir.

Definition filesystem : Type := path -> option node.

Definition put (p : path) (n : node) (fs : filesystem) : filesystem :=
  fun q => if path_eqb q p then Some n else fs q.

(** [p.is_file()] *)
Definition is_file (fs : filesystem) (p : path) : bool :=
  match fs p with
  | Some (File _) => true
  | _ => false
  end.

(** The text of the regular file at [p], if there is one. *)
Definition file_text (fs : filesystem) (p : path) : option string :=
  match fs p with
  | Some (File text) => Some text
  | _ => None
  end.

(** [p.read_text("utf-8")] *)
Definition read_text (fs : filesystem) (p : path) : outcome string :=
  match fs p with
  | Some (File text) => Return text
  | Some Dir => Raise IsADirectoryError
  | None => Raise FileNotFoundError
  end.

(** [p.mkdir(exist_ok=True)], without [parents=True]. *)
Definition mkdir_exist_ok (p : path) (fs : filesystem) : outcome unit * filesystem :=
  match fs p with
  | Some Dir => (Return tt, fs)
  | Some (File _) => (Raise FileExistsError, fs)
  | None =>
      match fs (parent p) with
      | Some Dir => (Return tt, put p Dir fs)
      | Some (File _) => (Raise NotADirectoryError, fs)
      | None => (Raise FileNotFoundError, fs)
      end
  end.

(** [with p.open("w") as fp: fp.write(text)] *)
Definition write_text (p : path) (text : string) (fs : filesystem)
  : outcome unit * filesystem :=
  match fs p with
  | Some Dir => (Raise IsADirectoryError, fs)
  | _ =>
      match fs (parent p) with
      | Some Dir => (Return tt, put p (File text) fs)
      | Some (File _) => (Raise NotADirectoryError, fs)
      | None => (Raise FileNotFoundError, fs)
      end
  end.

(** ** The object and its world *)

(** The fields of a [Config].  The four dictionaries are four objects:
    [_data] is a copy of the defaults, [_dirty] a new dictionary, and each
    layer the dictionary its own call of [load_config] built; none is
    reachable through another, so each field holds its own value. *)
Record Config : Type := mkConfig {
  project_root : path;
  _data : dict value;
  _dirty : dict value;
  _project_config_file : path;
  _home_config_file : path;
  _project_config : dict value;
  _home_config : dict value
}.

Definition world : Type := (Config * filesystem)%type.

(** A method: from the world before to what it returns or raises and the
    world after.  The world after a [Raise] is the one the exception leaves. *)
Definition M (A : Type) : Type := world -> outcome A * world.

Definition ret {A : Type} (a : A) : M A := fun w => (Return a, w).

Definition raise {A : Type} (e : exn) : M A := fun w => (Raise e, w).

Definition bind {A B : Type} (m : M A) (f : A -> M B) : M B :=
  fun w =>
    match m w with
    | (Return a, w') => f a w'
    | (Raise e, w') => (Raise e, w')
    end.

Notation "x <- m ;; k" := (bind m (fun x => k))
  (at level 61, m at next level, right associativity).
Notation "m ;;; k" := (bind m (fun _ => k))
  (at level 61, right associativity).

Definition self : M Config := fun w => (Return (fst w), w).

Definition modify (f : Config -> Config) : M unit :=
  fun w => (Return tt, (f (fst w), snd w)).

Definition lift {A : Type} (x : outcome A) : M A := fun w => (x, w).

Definition io {A : Type} (f : filesystem -> outcome A * filesystem) : M A :=
  fun w => let (r, fs') := f (snd w) in (r, (fst w, fs')).

Definition set_data (d : dict value) (c : Config) : Config :=
  mkConfig (project_root c) d (_dirty c) (_project_config_file c)
    (_home_config_file c) (_project_config c) (_home_config c).

Definition set_dirty (d : dict value) (c : Config) : Config :=
  mkConfig (project_root c) (_data c) d (_project_config_file c)
    (_home_config_file c) (_project_config c) (_home_config c).

Definition set_project_config (d : dict value) (c : Config) : Config :=
  mkConfig (project_root c) (_data c) (_dirty c) (_project_config_file c)
    (_home_config_file c) d (_home_config c).

Definition set_home_config (d : dict value) (c : Config) : Config :=
  mkConfig (project_root c) (_data c) (_dirty c) (_project_config_file c)
    (_home_config_file c) (_project_config c) d.

(** [self._project_config if for_proejct else self._home_config] *)
Definition target_config (for_proejct : bool) (c : Config) : dict value :=
  if for_proejct then _project_config c else _home_config c.

(** [self._project_config_file if for_proejct else self._home_config_file] *)
Definition target_file (for_proejct : bool) (c : Config) : path :=
  if for_proejct then _project_config_file c else _home_config_file c.

Definition set_target_config (for_proejct : bool) (d : dict value) (c : Config)
  : Config :=
  if for_proejct then set_project_config d c else set_home_config d c.

(** The file system lets [p] be written after [p.parent.mkdir(exist_ok=True)]:
    [p] is not a directory, and its parent is a directory or can be made
    one. *)
Definition writable (fs : filesystem) (p : path) : bool :=
  match p, fs p with
  | [], _ => false
  | _, Some Dir => false
  | _, _ =>
      match fs (parent p) with
      | Some Dir => true
      | Some (File _) => false
      | None =>
          match fs (parent (parent p)) with
          | Some Dir => true
          | _ => false
          end
      end
  end.

(** ** class Config *)

Section ConfigClass.

(** [Path.home()] *)
Variable home : path.
(** [appdirs.user_cache_dir("pdm")] *)
Variable user_cache_dir : string.
(** [get_pypi_source()], of [pdm.utils] *)
Variable pypi_source : dict value.
(** [tomlkit.parse]; [None] when the parser rejects the text *)
Variable parse : string -> option table.
(** [tomlkit.dumps] *)
Variable dumps : table -> string.

Definition HOME_CONFIG : path := child (child home ".pdm") "config.toml".

(** config name: (config_description, not_for_project) *)
Definition CONFIG_ITEMS : dict (string * bool) :=
  [ ("cache_dir", ("The root directory of cached files", true));
    ("python.path", ("The Python interpreter path", false));
    ("python.use_pyenv", ("Use the pyenv interpreter", false));
    ("pypi.url",
      ("The URL of PyPI mirror, defaults to https://pypi.org/simple", false));
    ("pypi.verify_ssl", ("Verify SSL certificate when query PyPI", false)) ].

(** [CONFIG_ITEMS[k][1]] for a key of the registry: project-restricted. *)
Definition restricted (k : string) : bool :=
  match get k CONFIG_ITEMS with
  | Some item => snd item
  | None => false
  end.

Definition DEFAULT_CONFIG : dict value :=
  update [ ("cache_dir", VStr user_cache_dir); ("python.use_pyenv", VBool true) ]
         pypi_source.

Definition load_config (fs : filesystem) (file_path : path) : outcome (dict value) :=
  if negb (is_file fs file_path) then Return []
  else
    obind (read_text fs file_path) (fun text =>
    match parse text with
    | Some document => Return (get_item document)
    | None => Raise TOMLParseError
    end).

Definition __init__ (root : path) (fs : filesystem) : outcome Config :=
  let project_config_file := child root ".pdm.toml" in
  let home_config_file := child HOME_CONFIG "config.toml" in
  obind (load_config fs project_config_file) (fun project_config =>
  obind (load_config fs home_config_file) (fun home_config =>
  (* First load user config, then project config *)
  let data := fold_left (fun d config => update d config)
                [home_config; project_config] DEFAULT_CONFIG in
  Return (mkConfig root data [] project_config_file home_config_file
            project_config home_config))).

(** [[k for k in self._dirty if self.CONFIG_ITEMS[k][1]]] *)
Fixpoint not_for_project (dirty_keys : list string) : outcome (list string) :=
  match dirty_keys with
  | [] => Return []
  | k :: rest =>
      match get k CONFIG_ITEMS with
      | None => Raise (KeyError k)
      | Some item =>
          obind (not_for_project rest)
                (fun ks => Return (if snd item then k :: ks else ks))
      end
  end.

Definition save_error (not_for_project_keys : list string) : string :=
  "Config item " ++ join "," not_for_project_keys
    ++ " can not be saved in project config.".

Definition save_config (for_proejct : bool) : M unit :=
  c <- self ;;
  not_for_project_keys <- lift (not_for_project (keys (_dirty c))) ;;
  if negb (Nat.eqb (length not_for_project_keys) 0) && for_proejct then
    raise (ValueError (save_error not_for_project_keys))
  else
    (* [data] is the layer's own dictionary: the update is seen through it *)
    let data := update (target_config for_proejct c) (_dirty c) in
    modify (set_target_config for_proejct data) ;;;
    let file_path := target_file for_proejct c in
    io (mkdir_exist_ok (parent file_path)) ;;;
    toml_data <- lift (unflatten data) ;;
    io (write_text file_path (dumps toml_data)) ;;;
    modify (set_dirty []).

Definition __getitem__ (key : string) : M value :=
  c <- self ;;
  match get key (_data c) with
  | Some v => ret v
  | None => raise (NoConfigError key)
  end.

(** The two [value.lower() == ...] tests on a [str]. *)
Definition coerce (v : value) : value :=
  match v with
  | VStr s =>
      if String.eqb (lower s) "false" then VBool false
      else if String.eqb (lower s) "true" then VBool true
      else v
  | _ => v
  end.

Definition __setitem__ (key : string) (v : value) : M unit :=
  if negb (contains key CONFIG_ITEMS) then raise (NoConfigError key)
  else
    let v := coerce v in
    modify (fun c => set_dirty (set key v (_dirty c)) c) ;;;
    modify (fun c => set_data (set key v (_data c)) c).

Definition __len__ : M nat :=
  c <- self ;; ret (length (_data c)).

Definition __iter__ : M (list string) :=
  c <- self ;; ret (keys (_data c)).

Definition __delitem__ (key : string) : M unit :=
  raise NotImplementedError.

(** The calls a client can make on a constructed object. *)
Inductive call : Type :=
| Get (key : string)
| Set_ (key : string) (v : value)
| Save (for_proejct : bool)
| Del (key : string)
| Len
| Iter.

Definition forget {A : Type} (r : outcome A * world) : option exn * world :=
  match r with
  | (Return _, w) => (None, w)
  | (Raise e, w) => (Some e, w)
  end.

Definition exec (op : call) (w : world) : option exn * world :=
  match op with
  | Get key => forget (__getitem__ key w)
  | Set_ key v => forget (__setitem__ key v w)
  | Save for_proejct => forget (save_config for_proejct w)
  | Del key => forget (__delitem__ key w)
  | Len => forget (__len__ w)
  | Iter => forget (__iter__ w)
  end.

(** The objects a program can hold: built by the constructor, then used
    through the calls above, the file system changing freely in between. *)
Inductive reachable : Config -> Prop :=
| reach_init root fs c :
    __init__ root fs = Return c -> reachable c
| reach_call c op fs e c' fs' :
    reachable c -> exec op (c, fs) = (e, (c', fs')) -> reachable c'.

End ConfigClass.

(** ** Shapes of documents *)

Definition is_table (d : doc) : bool :=
  match d with
  | Table _ => true
  | Leaf _ => false
  end.

(** [P] holds of the items of [d] and of every table below it. *)
Fixpoint all_tables (P : table -> bool) (d : doc) : bool :=
  match d with
  | Leaf _ => true
  | Table items =>
      P items
      && (fix loop (l : list (string * doc)) : bool :=
            match l with
            | [] => true
            | (_, v) :: rest => all_tables P v && loop rest
            end) items
  end.

Fixpoint distinct (l : list string) : bool :=
  match l with
  | [] => true
  | k :: rest => negb (existsb (String.eqb k) rest) && distinct rest
  end.

(** Every table is a dictionary: no key occurs twice in it. *)
Definition unique_keys (D : table) : bool :=
  all_tables (fun t => distinct (keys t)) (Table D).

(** No key of any table contains a dot. *)
Definition dot_free_keys (D : table) : bool :=
  all_tables (fun t => forallb dot_free (keys t)) (Table D).

Definition empty_table (d : doc) : bool :=
  match d with
  | Table [] => true
  | _ => false
  end.

(** No table below the root is empty. *)
Definition no_empty_table (D : table) : bool :=
  all_tables (forallb (fun kv => negb (empty_table (snd kv)))) (Table D).

(** The dotted key path of every node below [d], with [true] for a branch
    (a table) and [false] for a leaf (a scalar). *)
Fixpoint key_paths_node (d : doc) : list (string * bool) :=
  match d with
  | Leaf _ => []
  | Table items =>
      (fix loop (l : list (string * doc)) : list (string * bool) :=
         match l with
         | [] => []
         | (k, v) :: rest =>
             (k, is_table v)
               :: map (fun e => (dotted k (fst e), snd e)) (key_paths_node v)
               ++ loop rest
         end) items
  end.

Definition key_paths (D : table) : list (string * bool) :=
  key_paths_node (Table D).

(** No key path is both a branch and a leaf. *)
Definition branch_xor_leaf (D : table) : bool :=
  forallb
    (fun p =>
       negb (existsb
               (fun q => String.eqb (fst p) (fst q) && xorb (snd p) (snd q))
               (key_paths D)))
    (key_paths D).

(** The same condition on a flat mapping: once the keys are split, no key's
    parts are the first parts of a longer key. *)
Fixpoint strict_prefix (p q : list string) : bool :=
  match p, q with
  | [], _ :: _ => true
  | a :: p', b :: q' => String.eqb a b && strict_prefix p' q'
  | _, [] => false
  end.

Fixpoint no_prefix_pairs (ps : list (list string)) : bool :=
  match ps with
  | [] => true
  | p :: rest =>
      forallb (fun q => negb (strict_prefix p q) && negb (strict_prefix q p)) rest
      && no_prefix_pairs rest
  end.

Definition prefix_free (d : dict value) : bool :=
  no_prefix_pairs (map split_dot (keys d)).

(** The paths of the leaves below [d], each a list of keys. *)
Fixpoint leaf_paths_node (d : doc) : list (list string) :=
  match d with
  | Leaf _ => [[]]
  | Table items =>
      (fix loop (l : list (string * doc)) : list (list string) :=
         match l with
         | [] => []
         | (k, v) :: rest => map (cons k) (leaf_paths_node v) ++ loop rest
         end) items
  end.

Definition leaf_paths (t : table) : list (list string) :=
  leaf_paths_node (Table t).

(** The documents the round trip is proved for, as a derivation: keys
    without dots, no key twice in a table, no empty table below the root. *)
Inductive plain : table -> Prop :=
| plain_nil : plain []
| plain_leaf k x rest :
    dot_free k = true -> ~ In k (keys rest) -> plain rest ->
    plain ((k, Leaf x) :: rest)
| plain_table k sub rest :
    dot_free k = true -> ~ In k (keys rest) -> sub <> [] ->
    plain sub -> plain rest ->
    plain ((k, Table sub) :: rest).

(** The first of the parts [key.split(".")] gives. *)
Definition first_part (key : string) : string := hd EmptyString (split_dot key).

(** ** Invariant of the object *)

Definition dirty_in_registry (c : Config) : Prop :=
  forall k, In k (keys (_dirty c)) -> contains k CONFIG_ITEMS = true.

(** The two file names are the ones the constructor computed. *)
Definition files_in_place (home : path) (c : Config) : Prop :=
  _home_config_file c = child (HOME_CONFIG home) "config.toml"
  /\ _project_config_file c = child (project_root c) ".pdm.toml".

(** ** A small installation, to run the definitions on *)

Module Demo.

Definition home : path := ["home"; "alice"].

Definition root : path := ["home"; "alice"; "proj"].

Definition user_cache_dir : string := "/home/alice/.cache/pdm".

Definition pypi_source : dict value :=
  [ ("pypi.url", VStr "https://pypi.org/simple"); ("pypi.verify_ssl", VBool true) ].

Definition nl : string := String (ascii_of_nat 10) EmptyString.

Definition project_text : string :=
  "[python]" ++ nl ++ "use_pyenv = false" ++ nl.

Definition home_text : string :=
  "cache_dir = 1" ++ nl ++ "[pypi]" ++ nl ++ "url = 2" ++ nl.

(** A file that uses [python] as a plain key. *)
Definition clash_text : string := "python = 1" ++ nl.

(** The texts the parser knows, every other text is rejected. *)
Definition parse (text : string) : option table :=
  if String.eqb text project_text then
    Some [ ("python", Table [ ("use_pyenv", Leaf (VBool false)) ]) ]
  else if String.eqb text home_text then
    Some [ ("cache_dir", Leaf (VInt 1)); ("pypi", Table [ ("url", Leaf (VInt 2)) ]) ]
  else if String.eqb text clash_text then
    Some [ ("python", Leaf (VInt 1)) ]
  else None.

(** A serializer that prints the dotted keys only. *)
Definition dumps (t : table) : string := join "," (keys (get_item t)).

(** The directories exist, no configuration file does. *)
Definition fresh_fs : filesystem :=
  fun p =>
    if path_eqb p [] || path_eqb p ["home"] || path_eqb p home
       || path_eqb p root || path_eqb p (child home ".pdm")
    then Some Dir else None.

(** A home configuration file where the documentation puts it. *)
Definition documented_fs : filesystem :=
  put (child (child home ".pdm") "config.toml") (File home_text) fresh_fs.

(** Both configuration files, each where the constructor looks for it. *)
Definition used_fs : filesystem :=
  put (child (child (child home ".pdm") "config.toml") "config.toml")
      (File home_text)
    (put (child (child home ".pdm") "config.toml") Dir
       (put (child root ".pdm.toml") (File project_text) fresh_fs)).

(** [~/.pdm] is a regular file: no directory can be made below it. *)
Definition blocked_fs : filesystem :=
  put (child home ".pdm") (File EmptyString) fresh_fs.

(** The home configuration, where the constructor looks for it, sets the
    plain key [python]. *)
Definition clash_fs : filesystem :=
  put (child (child (child home ".pdm") "config.toml") "config.toml")
      (File clash_text)
    (put (child (child home ".pdm") "config.toml") Dir fresh_fs).

(** A document with nested tables, and what it flattens to. *)
Definition nested : table :=
  [ ("cache_dir", Leaf (VStr "/tmp/x"));
    ("pypi", Table [ ("url", Leaf (VStr "https://pypi.org/simple"));
                     ("verify_ssl", Leaf (VBool true)) ]);
    ("python", Table [ ("use_pyenv", Leaf (VBool false)) ]) ].

Definition nested_flat : dict value :=
  [ ("cache_dir", VStr "/tmp/x");
    ("pypi.url", VStr "https://pypi.org/simple");
    ("pypi.verify_ssl", VBool true);
    ("python.use_pyenv", VBool false) ].

(** [[a]] alone in a file: a table without entries. *)
Definition empty_section : table := [ ("a", Table []) ].

(** ["a.b" = 1] in a file: a quoted key with a dot in it. *)
Definition quoted_key : table := [ ("a.b", Leaf (VInt 1)) ].

Definition project_file : path := child root ".pdm.toml".

(** Where [__init__] looks for the home configuration. *)
Definition home_file : path := ["home"; "alice"; ".pdm"; "config.toml"; "config.toml"].

Definition defaults : dict value :=
  [ ("cache_dir", VStr user_cache_dir); ("python.use_pyenv", VBool true);
    ("pypi.url", VStr "https://pypi.org/simple"); ("pypi.verify_ssl", VBool true) ].

(** The object built over [fresh_fs]. *)
Definition fresh_config : Config :=
  mkConfig root defaults [] project_file home_file [] [].

(** The object built over [used_fs]. *)
Definition used_config : Config :=
  mkConfig root
    [ ("cache_dir", VInt 1); ("python.use_pyenv", VBool false);
      ("pypi.url", VInt 2); ("pypi.verify_ssl", VBool true) ]
    [] project_file home_file
    [ ("python.use_pyenv", VBool false) ]
    [ ("cache_dir", VInt 1); ("pypi.url", VInt 2) ].

(** [fresh_config] after [config["cache_dir"] = "/tmp/x"]. *)
Definition cache_dir_set : Config :=
  mkConfig root
    [ ("cache_dir", VStr "/tmp/x"); ("python.use_pyenv", VBool true);
      ("pypi.url", VStr "https://pypi.org/simple"); ("pypi.verify_ssl", VBool true) ]
    [ ("cache_dir", VStr "/tmp/x") ] project_file home_file [] [].

(** The object built over [clash_fs], after
    [config["cache_dir"] = "/tmp/x"] and
    [config["python.path"] = "/usr/bin/python3"]. *)
Definition clash_set : Config :=
  mkConfig root
    [ ("cache_dir", VStr "/tmp/x"); ("python.use_pyenv", VBool true);
      ("pypi.url", VStr "https://pypi.org/simple"); ("pypi.verify_ssl", VBool true);
      ("python", VInt 1); ("python.path", VStr "/usr/bin/python3") ]
    [ ("cache_dir", VStr "/tmp/x"); ("python.path", VStr "/usr/bin/python3") ]
    project_file home_file [] [ ("python", VInt 1) ].

(** [fresh_config] after [config["python.path"] = "/usr/bin/python3"]. *)
Definition python_path_set : Config :=
  mkConfig root
    (defaults ++ [ ("python.path", VStr "/usr/bin/python3") ])
    [ ("python.path", VStr "/usr/bin/python3") ] project_file home_file [] [].

(** ... and after [save_config(True)] on it. *)
Definition python_path_saved : Config :=
  mkConfig root
    (defaults ++ [ ("python.path", VStr "/usr/bin/python3") ])
    [] project_file home_file [ ("python.path", VStr "/usr/bin/python3") ] [].

End Demo.

(** ** Further notions, for the rest of the class *)

(** The object after [self._dirty[key] = value; self._data[key] = value],
    [value] being what [__setitem__] made of [v]. *)
Definition after_set (key : string) (v : value) (c : Config) : Config :=
  set_data (set key (coerce v) (_data c))
    (set_dirty (set key (coerce v) (_dirty c)) c).

(** The object after [data.update(self._dirty)] in [save_config]. *)
Definition merged (for_proejct : bool) (c : Config) : Config :=
  set_target_config for_proejct
    (update (target_config for_proejct c) (_dirty c)) c.

(** The dictionaries of the object are dictionaries (no key twice), and what
    is pending in [_dirty] is what [_data] holds for the key. *)
Definition well_kept (c : Config) : Prop :=
  NoDup (keys (_data c)) /\ NoDup (keys (_dirty c))
  /\ NoDup (keys (_home_config c)) /\ NoDup (keys (_project_config c))
  /\ forall k v, get k (_dirty c) = Some v -> get k (_data c) = Some v.

(** What may stand under a key of a plain table. *)
Definition plain_item (d : doc) : Prop :=
  match d with
  | Leaf _ => True
  | Table sub => sub <> [] /\ plain sub
  end.

(** Following keys from the root of a document down to a leaf. *)
Fixpoint lookup_path (p : list string) (t : table) : option value :=
  match p with
  | [] => None
  | k :: p' =>
      match get k t with
      | Some (Leaf x) => match p' with [] => Some x | _ :: _ => None end
      | Some (Table sub) => lookup_path p' sub
      | None => None
      end
  end.


(** ** More of the small installation *)

Module Saved.

(** A parser that reads back what [Demo.dumps] writes for the one layer
    saved below. *)
Definition parse (text : string) : option table :=
  if String.eqb text "python.path" then
    Some [ ("python", Table [ ("path", Leaf (VStr "/usr/bin/python3")) ]) ]
  else None.

(** [Demo.fresh_fs] after the project save of [python.path]. *)
Definition fs : filesystem :=
  put Demo.project_file (File "python.path") Demo.fresh_fs.

(** The object a new construction over [fs] gives. *)
Definition reloaded : Config :=
  mkConfig Demo.root
    (Demo.defaults ++ [ ("python.path", VStr "/usr/bin/python3") ])
    [] Demo.project_file Demo.home_file
    [ ("python.path", VStr "/usr/bin/python3") ] [].

(** A flat mapping whose keys of one section are not next to each other. *)
Definition scattered : dict value :=
  [ ("pypi.url", VStr "https://pypi.org/simple");
    ("cache_dir", VStr "/tmp/x");
    ("pypi.verify_ssl", VBool true) ].



End Saved.

(** * Properties *)

Unset Implicit Arguments.

(** ** Dictionaries *)

Section DictFacts.
Context {V : Type}.
Implicit Types (d o : dict V) (k : string) (v : V).

Lemma get_none_iff k d : get k d = None <-> ~ In k (keys d).
Proof.
  induction d as [|[k' v'] d IH]; simpl.
  - tauto.
  - destruct (String.eqb_spec k k') as [->|Hne].
    + split; [discriminate | intros H; exfalso; apply H; now left].
    + rewrite IH. split.
      * intros H [E|Hin]; [now apply Hne | now apply H].
      * intros H Hin. apply H. now right.
Qed.

Lemma get_set_same k v d : get k (set k v d) = Some v.
Proof.
  induction d as [|[k' v'] d IH]; simpl.
  - now rewrite String.eqb_refl.
  - destruct (String.eqb_spec k k') as [->|Hne]; simpl.
    + now rewrite String.eqb_refl.
    + apply String.eqb_neq in Hne. now rewrite Hne.
Qed.

Lemma get_set_other k k' v d : k <> k' -> get k (set k' v d) = get k d.
Proof.
  intros Hne. induction d as [|[k1 v1] d IH]; simpl.
  - apply String.eqb_neq in Hne. now rewrite Hne.
  - destruct (String.eqb_spec k' k1) as [->|Hne1]; simpl.
    + apply String.eqb_neq in Hne. now rewrite Hne.
    + now rewrite IH.
Qed.

Lemma keys_set k v d :
  forall x, In x (keys (set k v d)) <-> x = k \/ In x (keys d).
Proof.
  intros x. induction d as [|[k' v'] d IH]; simpl.
  - intuition congruence.
  - destruct (String.eqb_spec k k') as [->|Hne]; simpl.
    + intuition congruence.
    + rewrite IH. intuition congruence.
Qed.

Lemma set_fresh k v d : ~ In k (keys d) -> set k v d = d ++ [(k, v)].
Proof.
  induction d as [|[k' v'] d IH]; simpl; [reflexivity|].
  intros Hnin. destruct (String.eqb_spec k k') as [->|Hne].
  - exfalso. apply Hnin. now left.
  - f_equal. apply IH. intros Hin. apply Hnin. now right.
Qed.

Lemma nodup_set k v d : NoDup (keys d) -> NoDup (keys (set k v d)).
Proof.
  induction d as [|[k' v'] d IH]; simpl; intros Hnd.
  - constructor; [tauto | constructor].
  - inversion Hnd as [|? ? Hk' Hnd']; subst.
    destruct (String.eqb_spec k k') as [->|Hne]; simpl.
    + now constructor.
    + constructor; [|now apply IH].
      change (~ In k' (keys (set k v d))). rewrite keys_set.
      intros [E|Hin]; [now apply Hne | now apply Hk'].
Qed.

Lemma update_cons d k v o : update d ((k, v) :: o) = update (set k v d) o.
Proof. reflexivity. Qed.

Lemma nodup_update d o : NoDup (keys d) -> NoDup (keys (update d o)).
Proof.
  revert d. induction o as [|[k v] o IH]; intros d Hnd; [exact Hnd|].
  rewrite update_cons. apply IH. now apply nodup_set.
Qed.

(** Reading an updated dictionary: the update wins. *)
Lemma get_update k d o :
  NoDup (keys o) ->
  get k (update d o) = match get k o with Some v => Some v | None => get k d end.
Proof.
  revert d. induction o as [|[k' v'] o IH]; intros d Hnd; [reflexivity|].
  inversion Hnd as [|? ? Hk' Hnd']; subst.
  rewrite update_cons, IH by assumption. simpl.
  destruct (String.eqb_spec k k') as [->|Hne].
  - apply get_none_iff in Hk'. rewrite Hk'. apply get_set_same.
  - now rewrite get_set_other.
Qed.

(** Updating with fresh, pairwise different keys appends them in order. *)
Lemma update_fresh d o :
  NoDup (keys o) -> (forall x, In x (keys o) -> ~ In x (keys d)) ->
  update d o = d ++ o.
Proof.
  revert d. induction o as [|[k v] o IH]; intros d Hnd Hdis.
  - simpl. now rewrite app_nil_r.
  - inversion Hnd as [|? ? Hk Hnd']; subst.
    rewrite update_cons, set_fresh by (apply Hdis; now left).
    rewrite IH; [now rewrite <- app_assoc | assumption |].
    intros x Hx. unfold keys. rewrite map_app, in_app_iff. simpl.
    intros [Hin|[E|[]]].
    + apply (Hdis x); [now right | assumption].
    + subst. now apply Hk.
Qed.

Lemma set_unchanged k v d : get k d = Some v -> set k v d = d.
Proof.
  induction d as [|[k' v'] d IH]; simpl; [discriminate|].
  destruct (String.eqb_spec k k') as [->|Hne].
  - now intros [= ->].
  - intros H. now rewrite IH.
Qed.

Lemma set_set k v v' d : set k v (set k v' d) = set k v d.
Proof.
  induction d as [|[k1 v1] d IH]; simpl.
  - now rewrite String.eqb_refl.
  - destruct (String.eqb_spec k k1) as [->|Hne]; simpl.
    + now rewrite String.eqb_refl.
    + apply String.eqb_neq in Hne. now rewrite Hne, IH.
Qed.

End DictFacts.

(** ** Strings *)

Lemma caseless_eqb_lower s t : caseless_eqb s t = String.eqb (lower s) (lower t).
Proof.
  revert t.
  induction s as [|a s IH]; intros [|b t]; cbn [caseless_eqb lower];
    try reflexivity.
  rewrite IH.
  destruct (Ascii.eqb_spec (lower_ascii a) (lower_ascii b)) as [E|Hne];
    destruct (String.eqb_spec (lower s) (lower t)) as [E'|Hne'];
    cbn [andb]; symmetry.
  - rewrite E, E'. apply String.eqb_refl.
  - apply String.eqb_neq. intros [= _ E']. now apply Hne'.
  - apply String.eqb_neq. intros [= E _]. now apply Hne.
  - apply String.eqb_neq. intros [= E _]. now apply Hne.
Qed.

Lemma split_dot_not_nil s : split_dot s <> [].
Proof.
  destruct s as [|c s]; cbn [split_dot]; [discriminate|].
  destruct (Ascii.eqb c dot); [discriminate|].
  destruct (split_dot s); discriminate.
Qed.

Lemma split_dot_dot_free k : dot_free k = true -> split_dot k = [k].
Proof.
  induction k as [|c k IH]; cbn [dot_free split_dot]; [reflexivity|].
  intros H. apply andb_true_iff in H. destruct H as [Hc Hk].
  apply negb_true_iff in Hc. rewrite Hc, (IH Hk). reflexivity.
Qed.

Lemma split_dot_dotted k s :
  dot_free k = true -> split_dot (dotted k s) = k :: split_dot s.
Proof.
  unfold dotted. change ("." ++ s)%string with (String dot s).
  induction k as [|c k IH]; intros H.
  - reflexivity.
  - cbn [dot_free] in H. apply andb_true_iff in H. destruct H as [Hc Hk].
    apply negb_true_iff in Hc. cbn [String.append split_dot].
    rewrite Hc, (IH Hk). reflexivity.
Qed.

Lemma dotted_inj k a b : dotted k a = dotted k b -> a = b.
Proof.
  unfold dotted. change ("." ++ a)%string with (String dot a).
  change ("." ++ b)%string with (String dot b).
  induction k as [|c k IH]; cbn [String.append].
  - now intros [= E].
  - intros [= E]. now apply IH.
Qed.

Lemma first_part_dot_free k : dot_free k = true -> first_part k = k.
Proof. intros H. unfold first_part. now rewrite split_dot_dot_free. Qed.

Lemma first_part_dotted k s : dot_free k = true -> first_part (dotted k s) = k.
Proof. intros H. unfold first_part. now rewrite split_dot_dotted. Qed.

(** ** The flattening walk *)

Lemma get_item_unfold t :
  get_item t
  = fold_left (fun result kv => update result (flat_entries (fst kv) (snd kv))) t [].
Proof.
  unfold get_item. cbn [get_item_node].
  match goal with
  | |- ?loop t [] = fold_left ?step t [] =>
      enough (H : forall acc, loop t acc = fold_left step t acc) by apply H
  end.
  induction t as [|[k v] t IH]; intros acc; [reflexivity|].
  cbn [fold_left fst snd]. rewrite IH. f_equal. destruct v; reflexivity.
Qed.

(** The result of the walk is a dictionary: no key twice. *)
Lemma nodup_get_item t : NoDup (keys (get_item t)).
Proof.
  rewrite get_item_unfold.
  assert (H : NoDup (keys (@nil (string * value)))) by constructor.
  revert H. generalize (@nil (string * value)).
  induction t as [|[k v] t IH]; intros acc Hacc; simpl; [exact Hacc|].
  apply IH. now apply nodup_update.
Qed.

(** ** The dotted-key splitting *)

Lemma assign_path_raise parts last v temp e :
  assign_path parts last v temp = Raise e -> e = TypeError \/ e = AttributeError.
Proof.
  revert temp. induction parts as [|part parts IH]; intros temp;
    cbn [assign_path]; [discriminate|].
  destruct (get part temp) as [[x|sub]|].
  - intros [= <-]. destruct parts; auto.
  - destruct (assign_path parts last v sub) eqn:E; cbn; [discriminate|].
    intros [= <-]. eapply IH, E.
  - destruct (assign_path parts last v []) eqn:E; cbn; [discriminate|].
    intros [= <-]. eapply IH, E.
Qed.

Lemma unflatten_from_raise data toml_data e :
  unflatten_from toml_data data = Raise e -> e = TypeError \/ e = AttributeError.
Proof.
  revert toml_data. induction data as [|kv data IH]; intros toml_data;
    cbn [unflatten_from]; [discriminate|].
  destruct (assign_key toml_data kv) as [t|e'] eqn:E; cbn.
  - apply IH.
  - intros [= <-]. eapply assign_path_raise, E.
Qed.

Lemma unflatten_from_app d1 d2 toml_data :
  unflatten_from toml_data (d1 ++ d2)
  = obind (unflatten_from toml_data d1) (fun t => unflatten_from t d2).
Proof.
  revert toml_data. induction d1 as [|kv d1 IH]; intros toml_data;
    cbn [unflatten_from app]; [reflexivity|].
  destruct (assign_key toml_data kv) as [t|e]; cbn; [apply IH | reflexivity].
Qed.

(** *** On a prefix-free mapping the splitting never raises *)

Lemma leaf_paths_cons k v rest :
  leaf_paths ((k, v) :: rest) = map (cons k) (leaf_paths_node v) ++ leaf_paths rest.
Proof. reflexivity. Qed.

Lemma leaf_paths_get k v T p :
  get k T = Some v -> In p (leaf_paths_node v) -> In (k :: p) (leaf_paths T).
Proof.
  induction T as [|[k' v'] T IH]; cbn [get]; [discriminate|].
  rewrite leaf_paths_cons, in_app_iff.
  destruct (String.eqb_spec k k') as [->|Hne].
  - intros [= ->] Hin. left. now apply in_map.
  - intros Hget Hin. right. now apply IH.
Qed.

Lemma leaf_paths_set k v T p :
  In p (leaf_paths (set k v T)) ->
  In p (leaf_paths T) \/ exists q, p = k :: q /\ In q (leaf_paths_node v).
Proof.
  induction T as [|[k' v'] T IH]; cbn [set].
  - rewrite leaf_paths_cons, in_app_iff, in_map_iff.
    intros [(q & <- & Hq)|[]]. right. eauto.
  - destruct (String.eqb_spec k k') as [->|Hne];
      rewrite !leaf_paths_cons, !in_app_iff, in_map_iff.
    + intros [(q & <- & Hq)|Hin]; [right; eauto | left; now right].
    + intros [(q & <- & Hq)|Hin].
      * left. left. exists q. auto.
      * destruct (IH Hin) as [Hold|Hnew]; [left; now right | now right].
Qed.

Lemma strict_prefix_cons k p q :
  strict_prefix (k :: p) (k :: q) = strict_prefix p q.
Proof. cbn [strict_prefix]. now rewrite String.eqb_refl. Qed.

Lemma assign_path_total parts last v :
  forall T,
    (forall p, In p (leaf_paths T) -> strict_prefix p (parts ++ [last]) = false) ->
    exists T',
      assign_path parts last v T = Return T'
      /\ forall p, In p (leaf_paths T') ->
                   In p (leaf_paths T) \/ p = parts ++ [last].
Proof.
  induction parts as [|part parts IH]; intros T Hfree; cbn [assign_path app].
  - eexists. split; [reflexivity|]. intros p Hin.
    apply leaf_paths_set in Hin. destruct Hin as [Hin|(q & -> & [<-|[]])]; auto.
  - assert (Hsub : forall sub,
               (forall q, In q (leaf_paths sub) -> In (part :: q) (leaf_paths T)) ->
               exists T',
                 obind (assign_path parts last v sub)
                       (fun sub' => Return (set part (Table sub') T)) = Return T'
                 /\ forall p, In p (leaf_paths T') ->
                              In p (leaf_paths T) \/ p = part :: parts ++ [last]).
    { intros sub Hin. destruct (IH sub) as (sub' & -> & Hsub').
      - intros q Hq. rewrite <- (strict_prefix_cons part). apply Hfree, Hin, Hq.
      - cbn [obind]. eexists. split; [reflexivity|]. intros p Hp.
        apply leaf_paths_set in Hp. destruct Hp as [Hp|(q & -> & Hq)]; [now left|].
        destruct (Hsub' q Hq) as [Hq'| ->]; [left; now apply Hin | now right]. }
    destruct (get part T) as [[x|sub]|] eqn:Eget.
    + exfalso. assert (Hin : In [part] (leaf_paths T)).
      { apply (leaf_paths_get part (Leaf x) T [] Eget). now left. }
      apply Hfree in Hin. cbn [app] in Hin. rewrite strict_prefix_cons in Hin.
      destruct parts; discriminate.
    + apply Hsub. intros q. apply (leaf_paths_get part (Table sub) T q Eget).
    + apply Hsub. intros q [].
Qed.

Lemma unflatten_from_total data :
  forall T,
    no_prefix_pairs (map split_dot (keys data)) = true ->
    (forall p key, In p (leaf_paths T) -> In key (keys data) ->
                   strict_prefix p (split_dot key) = false) ->
    exists T', unflatten_from T data = Return T'.
Proof.
  induction data as [|[key v] data IH]; intros T Hpairs Hfree;
    cbn [unflatten_from].
  - eauto.
  - cbn [keys map fst no_prefix_pairs] in Hpairs.
    apply andb_true_iff in Hpairs. destruct Hpairs as [Hkey Hpairs].
    unfold assign_key. cbn [fst snd].
    assert (Hl : removelast (split_dot key)
                 ++ [List.last (split_dot key) EmptyString] = split_dot key).
    { symmetry. apply app_removelast_last, split_dot_not_nil. }
    destruct (assign_path_total (removelast (split_dot key))
                (List.last (split_dot key) EmptyString) v T)
      as (T1 & -> & HT1).
    + rewrite Hl. intros p Hp. apply (Hfree p key Hp). now left.
    + cbn [obind]. apply IH; [exact Hpairs|].
      intros p key' Hp Hkey'. destruct (HT1 p Hp) as [Hold| ->].
      * apply (Hfree p key' Hold). now right.
      * rewrite Hl. rewrite forallb_forall in Hkey.
        assert (Hin : In (split_dot key') (map split_dot (keys data)))
          by now apply in_map.
        apply Hkey, andb_true_iff in Hin. destruct Hin as [Hin _].
        now apply negb_true_iff in Hin.
Qed.

(** A flat mapping in which no key is the start of another converts to
    nested form. *)
Lemma unflatten_total d :
  prefix_free d = true -> exists toml_data, unflatten d = Return toml_data.
Proof.
  intros H. apply (unflatten_from_total d [] H). intros p key [].
Qed.

(** ** Construction and the merged view *)

Section StoreFacts.

Variable home : path.
Variable user_cache_dir : string.
Variable pypi_source : dict value.
Variable parse : string -> option table.
Variable dumps : table -> string.

Local Abbreviation DEFAULT := (DEFAULT_CONFIG user_cache_dir pypi_source).
Local Abbreviation init := (__init__ home user_cache_dir pypi_source parse).
Local Abbreviation load := (load_config parse).
Local Abbreviation save := (save_config dumps).

Lemma nodup_load_config fs p d : load fs p = Return d -> NoDup (keys d).
Proof.
  unfold load_config. destruct (negb (is_file fs p)).
  - intros [= <-]. constructor.
  - destruct (read_text fs p) as [text|e]; cbn [obind]; [|discriminate].
    destruct (parse text) as [document|]; [|discriminate].
    intros [= <-]. apply nodup_get_item.
Qed.

Lemma init_inv root fs c :
  init root fs = Return c ->
  load fs (child root ".pdm.toml") = Return (_project_config c)
  /\ load fs (child (HOME_CONFIG home) "config.toml") = Return (_home_config c)
  /\ c = mkConfig root
           (update (update DEFAULT (_home_config c)) (_project_config c)) []
           (child root ".pdm.toml") (child (HOME_CONFIG home) "config.toml")
           (_project_config c) (_home_config c).
Proof.
  unfold __init__.
  destruct (load fs (child root ".pdm.toml")) as [pc|]; simpl; [|discriminate].
  destruct (load fs (child (HOME_CONFIG home) "config.toml")) as [hc|]; simpl;
    [|discriminate].
  intros [= <-]. simpl. auto.
Qed.

(** The constructor returns as soon as both files can be loaded. *)
Lemma init_returns root fs hc pc :
  load fs (child (HOME_CONFIG home) "config.toml") = Return hc ->
  load fs (child root ".pdm.toml") = Return pc ->
  exists c, init root fs = Return c.
Proof.
  intros Hh Hp. unfold __init__. rewrite Hp. simpl. rewrite Hh. simpl. eauto.
Qed.

(** C1. After construction the merged view is the defaults updated with the
    Home layer and then with the Project layer, both as [load_config]
    returned them; so a key is read from the Project layer when it has it,
    else from the Home layer when it has it, else from the defaults. *)
Theorem C1_merge_precedence root fs c :
  init root fs = Return c ->
  load fs (_home_config_file c) = Return (_home_config c)
  /\ load fs (_project_config_file c) = Return (_project_config c)
  /\ _data c = update (update DEFAULT (_home_config c)) (_project_config c)
  /\ forall k,
       get k (_data c)
       = match get k (_project_config c) with
         | Some v => Some v
         | None =>
             match get k (_home_config c) with
             | Some v => Some v
             | None => get k DEFAULT
             end
         end.
Proof.
  intros Hinit. destruct (init_inv _ _ _ Hinit) as (Hp & Hh & Hc).
  assert (Hnp := nodup_load_config _ _ _ Hp).
  assert (Hnh := nodup_load_config _ _ _ Hh).
  rewrite Hc. simpl. repeat split; try assumption.
  intros k. now rewrite !get_update by assumption.
Qed.

(** C7. A path that is not an existing regular file loads as the empty
    mapping; when that is so for both configuration files, the constructor
    returns a store whose merged view is exactly the defaults. *)
Theorem C7_missing_files root fs p :
  (is_file fs p = false -> load fs p = Return [])
  /\ (is_file fs (child (HOME_CONFIG home) "config.toml") = false ->
      is_file fs (child root ".pdm.toml") = false ->
      exists c,
        init root fs = Return c
        /\ _data c = DEFAULT
        /\ _home_config c = [] /\ _project_config c = [] /\ _dirty c = []).
Proof.
  assert (Hload : forall q, is_file fs q = false -> load fs q = Return []).
  { intros q Hq. unfold load_config. now rewrite Hq. }
  split; [apply Hload|].
  intros Hh Hp. unfold __init__.
  rewrite (Hload _ Hp), (Hload _ Hh). simpl.
  eexists. split; [reflexivity|]. simpl. auto.
Qed.

(** ** Reading, writing and deleting one key *)

(** C5. [get] returns the value of the merged view when the key is there and
    raises [NoConfigError key] exactly when it is not; [set] raises
    [NoConfigError key] exactly when the key is not in the registry, and a
    [set] that raises leaves the whole store as it was. *)
Theorem C5_unknown_key key v c fs :
  (forall x, get key (_data c) = Some x <->
             __getitem__ key (c, fs) = (Return x, (c, fs)))
  /\ (get key (_data c) = None <->
      __getitem__ key (c, fs) = (Raise (NoConfigError key), (c, fs)))
  /\ (forall e, fst (__getitem__ key (c, fs)) = Raise e -> e = NoConfigError key)
  /\ (contains key CONFIG_ITEMS = false <->
      __setitem__ key v (c, fs) = (Raise (NoConfigError key), (c, fs)))
  /\ (forall e, fst (__setitem__ key v (c, fs)) = Raise e ->
                e = NoConfigError key
                /\ contains key CONFIG_ITEMS = false
                /\ snd (__setitem__ key v (c, fs)) = (c, fs))
  /\ (contains key CONFIG_ITEMS = true ->
      fst (__setitem__ key v (c, fs)) = Return tt).
Proof.
  unfold __getitem__, __setitem__, bind, self, ret, raise, modify. simpl.
  destruct (get key (_data c)) as [x|]; destruct (contains key CONFIG_ITEMS);
    simpl; repeat split; intros; try discriminate;
    repeat match goal with H : _ = _ |- _ => injection H as H; subst end;
    try reflexivity; try congruence.
Qed.

(** C6. On a registry key, [set] stores the boolean for a text equal to
    ["true"] or ["false"] up to case, and any other value as it is; the
    stored value is what both [_dirty] and [_data] then hold for the key. *)
Theorem C6_set_coerces_booleans k v c fs :
  contains k CONFIG_ITEMS = true ->
  let stored :=
    match v with
    | VStr s =>
        if caseless_eqb s "true" then VBool true
        else if caseless_eqb s "false" then VBool false
        else v
    | _ => v
    end in
  exists c',
    __setitem__ k v (c, fs) = (Return tt, (c', fs))
    /\ get k (_dirty c') = Some stored
    /\ get k (_data c') = Some stored.
Proof.
  intros Hk stored.
  assert (Hs : coerce v = stored).
  { subst stored. destruct v as [s| |]; simpl; try reflexivity.
    rewrite !caseless_eqb_lower. change (lower "true") with "true".
    change (lower "false") with "false".
    destruct (String.eqb_spec (lower s) "false") as [E|_].
    - rewrite E. reflexivity.
    - reflexivity. }
  unfold __setitem__. rewrite Hk. simpl.
  unfold bind, modify. simpl. eexists. split; [reflexivity|].
  simpl. rewrite Hs, !get_set_same. auto.
Qed.

(** C8. [delete] raises [NotImplementedError] for every key and leaves the
    object and the files as they were. *)
Theorem C8_delete_unsupported key c fs :
  __delitem__ key (c, fs) = (Raise NotImplementedError, (c, fs))
  /\ forall c' fs' r,
       __delitem__ key (c, fs) = (r, (c', fs')) ->
       _data c' = _data c /\ _dirty c' = _dirty c
       /\ _home_config c' = _home_config c
       /\ _project_config c' = _project_config c
       /\ fs' = fs.
Proof.
  split; [reflexivity|].
  unfold __delitem__, raise. intros c' fs' r [= <- <- <-]. auto.
Qed.

(** ** The file system *)

Lemma path_eqb_spec p q : reflect (p = q) (path_eqb p q).
Proof.
  revert q. induction p as [|a p IH]; intros [|b q]; simpl;
    try (constructor; congruence).
  destruct (String.eqb_spec a b) as [->|Hne]; simpl.
  - destruct (IH q) as [->|Hpq]; constructor; congruence.
  - constructor. congruence.
Qed.

Lemma put_same p n fs : put p n fs p = Some n.
Proof. unfold put. now destruct (path_eqb_spec p p). Qed.

Lemma put_other p q n fs : q <> p -> put p n fs q = fs q.
Proof. unfold put. now destruct (path_eqb_spec q p). Qed.

Lemma parent_child p name : parent (child p name) = p.
Proof. apply removelast_last. Qed.

Lemma child_neq p name : child p name <> p.
Proof.
  unfold child. intros E. apply (f_equal (@length string)) in E.
  rewrite length_app in E. simpl in E. lia.
Qed.

Lemma child_inj p q a b : child p a = child q b -> p = q /\ a = b.
Proof. apply app_inj_tail. Qed.

(** [mkdir] makes directories only: it changes nothing but its own path, and
    no regular file. *)
Lemma mkdir_frame d fs r fs1 :
  mkdir_exist_ok d fs = (r, fs1) ->
  (forall q, q <> d -> fs1 q = fs q)
  /\ (forall q, file_text fs1 q = file_text fs q)
  /\ (r = Return tt -> fs1 d = Some Dir).
Proof.
  unfold mkdir_exist_ok.
  destruct (fs d) as [[text|]|] eqn:Ed.
  - intros [= <- <-]. repeat split; [discriminate].
  - intros [= <- <-]. repeat split. now intros _.
  - destruct (fs (parent d)) as [[text|]|].
    + intros [= <- <-]. repeat split; [discriminate].
    + intros [= <- <-]. split; [|split].
      * intros q Hq. now apply put_other.
      * intros q. unfold file_text. destruct (path_eqb_spec q d) as [->|Hq].
        -- now rewrite put_same, Ed.
        -- now rewrite put_other.
      * intros _. apply put_same.
    + intros [= <- <-]. repeat split; [discriminate].
Qed.

Lemma write_text_inv p text fs r fs2 :
  write_text p text fs = (r, fs2) ->
  (r = Return tt -> fs2 = put p (File text) fs)
  /\ (forall e, r = Raise e -> fs2 = fs).
Proof.
  unfold write_text.
  destruct (fs p) as [[t|]|]; destruct (fs (parent p)) as [[t'|]|];
    intros [= <- <-]; split; intros; congruence.
Qed.

(** On a writable path the two file-system steps of [save_config] go
    through. *)
Lemma writable_ok fs p text :
  writable fs p = true ->
  exists fs1,
    mkdir_exist_ok (parent p) fs = (Return tt, fs1)
    /\ write_text p text fs1 = (Return tt, put p (File text) fs1).
Proof.
  unfold writable. destruct p as [|a p']; [discriminate|].
  set (p := a :: p').
  assert (Hp : p <> parent p).
  { unfold parent. intros E. apply (f_equal (@length string)) in E.
    assert (Hne : p <> []) by discriminate.
    destruct (exists_last Hne) as (l & x & El). rewrite El in E.
    rewrite removelast_last, length_app in E. simpl in E. lia. }
  intros Hw.
  assert (Hnd : fs p <> Some Dir).
  { intros E. rewrite E in Hw. discriminate. }
  assert (Hpar : match fs (parent p) with
                 | Some Dir => true
                 | Some (File _) => false
                 | None => match fs (parent (parent p)) with
                           | Some Dir => true
                           | _ => false
                           end
                 end = true).
  { destruct (fs p) as [[t|]|]; [exact Hw | discriminate | exact Hw]. }
  clear Hw. unfold mkdir_exist_ok, write_text.
  destruct (fs (parent p)) as [[t|]|] eqn:Epar; [discriminate| |].
  - exists fs. split; [reflexivity|]. rewrite Epar.
    destruct (fs p) as [[t|]|]; [reflexivity | congruence | reflexivity].
  - destruct (fs (parent (parent p))) as [[t|]|]; try discriminate.
    eexists. split; [reflexivity|].
    rewrite put_other by exact Hp. rewrite put_same.
    destruct (fs p) as [[t|]|]; [reflexivity | congruence | reflexivity].
Qed.

(** ** [save_config] step by step *)

Lemma not_for_project_registered ks :
  (forall k, In k ks -> contains k CONFIG_ITEMS = true) ->
  not_for_project ks = Return (filter restricted ks).
Proof.
  induction ks as [|k ks IH]; intros Hks; [reflexivity|].
  cbn [not_for_project filter]. unfold restricted at 1.
  assert (Hk : contains k CONFIG_ITEMS = true) by (apply Hks; now left).
  unfold contains in Hk. destruct (get k CONFIG_ITEMS) as [item|]; [|discriminate].
  rewrite IH by (intros k' Hin; apply Hks; now right). reflexivity.
Qed.

Lemma not_for_project_raise ks e :
  not_for_project ks = Raise e ->
  exists k, e = KeyError k /\ In k ks /\ contains k CONFIG_ITEMS = false.
Proof.
  induction ks as [|k ks IH]; cbn [not_for_project]; [discriminate|].
  unfold contains. destruct (get k CONFIG_ITEMS) as [item|] eqn:Ek.
  - destruct (not_for_project ks) as [ks'|e']; simpl; [discriminate|].
    intros [= <-]. destruct (IH eq_refl) as (k' & -> & Hin & Hc).
    exists k'. repeat split; [now right | exact Hc].
  - intros [= <-]. exists k. rewrite Ek. repeat split. now left.
Qed.

Lemma save_config_unfold b c fs ks :
  not_for_project (keys (_dirty c)) = Return ks ->
  save b (c, fs)
  = if negb (Nat.eqb (length ks) 0) && b then
      (Raise (ValueError (save_error ks)), (c, fs))
    else
      let data := update (target_config b c) (_dirty c) in
      let c1 := set_target_config b data c in
      match mkdir_exist_ok (parent (target_file b c)) fs with
      | (Raise e, fs1) => (Raise e, (c1, fs1))
      | (Return _, fs1) =>
          match unflatten data with
          | Raise e => (Raise e, (c1, fs1))
          | Return toml =>
              match write_text (target_file b c) (dumps toml) fs1 with
              | (Raise e, fs2) => (Raise e, (c1, fs2))
              | (Return _, fs2) => (Return tt, (set_dirty [] c1, fs2))
              end
          end
      end.
Proof.
  intros Hks. unfold save_config, bind, self, lift, raise, modify, io.
  cbn [fst snd]. rewrite Hks.
  destruct (negb (Nat.eqb (length ks) 0) && b); [reflexivity|].
  cbn [fst snd].
  destruct (mkdir_exist_ok (parent (target_file b c)) fs) as [[[]|e] fs1];
    [|reflexivity].
  destruct (unflatten (update (target_config b c) (_dirty c))) as [toml|e];
    [|reflexivity].
  cbn [fst snd].
  destruct (write_text (target_file b c) (dumps toml) fs1) as [[[]|e] fs2];
    reflexivity.
Qed.

Lemma save_config_keyerror b c fs e :
  not_for_project (keys (_dirty c)) = Raise e ->
  save b (c, fs) = (Raise e, (c, fs)).
Proof.
  intros Hks. unfold save_config, bind, self, lift. cbn [fst snd].
  now rewrite Hks.
Qed.

(** What a call can do to the object: the file names stay, and [_dirty]
    stays, is emptied, or gains a registry key. *)
Lemma exec_fields op c fs e c' fs' :
  exec dumps op (c, fs) = (e, (c', fs')) ->
  project_root c' = project_root c
  /\ _home_config_file c' = _home_config_file c
  /\ _project_config_file c' = _project_config_file c
  /\ (_dirty c' = _dirty c \/ _dirty c' = []
      \/ exists k v, contains k CONFIG_ITEMS = true /\ _dirty c' = set k v (_dirty c)).
Proof.
  destruct op as [key|key v|b|key| |]; cbn [exec].
  - unfold __getitem__, bind, self, ret, raise. cbn [fst].
    destruct (get key (_data c)); intros [= <- <- <-]; auto 10.
  - unfold __setitem__. destruct (contains key CONFIG_ITEMS) eqn:Ek; cbn [negb].
    + unfold bind, modify. cbn. intros [= <- <- <-]. cbn.
      repeat split. right. right. eauto.
    + unfold raise. cbn. intros [= <- <- <-]. auto 10.
  - destruct (not_for_project (keys (_dirty c))) as [ks|e'] eqn:Eks.
    + rewrite (save_config_unfold _ _ _ _ Eks).
      destruct (negb (Nat.eqb (length ks) 0) && b).
      { intros [= <- <- <-]. auto. }
      cbv zeta.
      destruct (mkdir_exist_ok (parent (target_file b c)) fs) as [[[]|e1] fs1].
      2:{ intros [= <- <- <-]. destruct b; cbn; auto 10. }
      destruct (unflatten (update (target_config b c) (_dirty c))) as [toml|e2].
      2:{ intros [= <- <- <-]. destruct b; cbn; auto 10. }
      destruct (write_text (target_file b c) (dumps toml) fs1) as [[[]|e3] fs2];
        intros [= <- <- <-]; destruct b; cbn; auto 10.
    + rewrite (save_config_keyerror _ _ _ _ Eks). intros [= <- <- <-]. auto 10.
  - unfold __delitem__, raise. cbn. intros [= <- <- <-]. auto 10.
  - unfold __len__, bind, self, ret. cbn. intros [= <- <- <-]. auto 10.
  - unfold __iter__, bind, self, ret. cbn. intros [= <- <- <-]. auto 10.
Qed.

Lemma exec_keeps_dirty_in_registry op c fs e c' fs' :
  dirty_in_registry c ->
  exec dumps op (c, fs) = (e, (c', fs')) ->
  dirty_in_registry c'.
Proof.
  intros Hinv Hexec.
  destruct (exec_fields _ _ _ _ _ _ Hexec) as (_ & _ & _ & [E|[E|(k & v & Hk & E)]]);
    unfold dirty_in_registry; rewrite E.
  - exact Hinv.
  - intros k [].
  - intros k' Hin. apply keys_set in Hin. destruct Hin as [->|Hin]; auto.
Qed.

Lemma reachable_invariant c :
  reachable home user_cache_dir pypi_source parse dumps c ->
  dirty_in_registry c /\ files_in_place home c.
Proof.
  induction 1 as [root fs c Hinit|c op fs e c' fs' _ [IHd IHf] Hexec].
  - destruct (init_inv _ _ _ Hinit) as (_ & _ & ->). split.
    + intros k [].
    + split; reflexivity.
  - split; [exact (exec_keeps_dirty_in_registry _ _ _ _ _ _ IHd Hexec)|].
    destruct (exec_fields _ _ _ _ _ _ Hexec) as (Hr & Hh & Hp & _).
    destruct IHf as [Fh Fp]. unfold files_in_place. now rewrite Hr, Hh, Hp.
Qed.

(** C9. [_dirty] only ever holds registry keys: the constructor leaves it
    empty, every call keeps the property, so it holds of every object a
    program can reach; there the registry lookups of [save_config] all
    succeed and [save_config] never raises [KeyError]. *)
Theorem C9_dirty_keys_registered :
  (forall root fs c, init root fs = Return c -> dirty_in_registry c)
  /\ (forall op c fs e c' fs',
        dirty_in_registry c -> exec dumps op (c, fs) = (e, (c', fs')) ->
        dirty_in_registry c')
  /\ (forall c,
        reachable home user_cache_dir pypi_source parse dumps c ->
        dirty_in_registry c
        /\ not_for_project (keys (_dirty c))
           = Return (filter restricted (keys (_dirty c)))
        /\ forall b fs k, fst (save b (c, fs)) <> Raise (KeyError k)).
Proof.
  split; [|split].
  - intros root fs c Hinit. destruct (init_inv _ _ _ Hinit) as (_ & _ & ->).
    intros k [].
  - intros op c fs e c' fs'. apply exec_keeps_dirty_in_registry.
  - intros c Hr. destruct (reachable_invariant _ Hr) as [Hd _].
    assert (Hks := not_for_project_registered _ Hd).
    repeat split; [exact Hd | exact Hks |].
    intros b fs k. rewrite (save_config_unfold _ _ _ _ Hks).
    destruct (negb _ && b); [cbn; discriminate|]. cbv zeta.
    destruct (mkdir_exist_ok (parent (target_file b c)) fs) as [[[]|e1] fs1] eqn:Em.
    2:{ cbn. intros [= ->]. unfold mkdir_exist_ok in Em.
        destruct (fs (parent (target_file b c))) as [[t|]|];
          [discriminate | discriminate |].
        destruct (fs (parent (parent (target_file b c)))) as [[t|]|];
          discriminate. }
    destruct (unflatten (update (target_config b c) (_dirty c))) as [toml|e2] eqn:Eu.
    2:{ cbn. intros [= ->]. destruct (unflatten_from_raise _ _ _ Eu); discriminate. }
    destruct (write_text (target_file b c) (dumps toml) fs1) as [[[]|e3] fs2] eqn:Ew;
      cbn; [discriminate|].
    intros [= ->]. unfold write_text in Ew.
    destruct (fs1 (target_file b c)) as [[t|]|];
      destruct (fs1 (parent (target_file b c))) as [[t'|]|]; discriminate.
Qed.

Lemma save_config_returns b c fs c' fs' :
  dirty_in_registry c ->
  save b (c, fs) = (Return tt, (c', fs')) ->
  exists fs1 toml,
    (b = false \/ filter restricted (keys (_dirty c)) = [])
    /\ mkdir_exist_ok (parent (target_file b c)) fs = (Return tt, fs1)
    /\ unflatten (update (target_config b c) (_dirty c)) = Return toml
    /\ write_text (target_file b c) (dumps toml) fs1 = (Return tt, fs')
    /\ c' = set_dirty []
              (set_target_config b (update (target_config b c) (_dirty c)) c).
Proof.
  intros Hd. rewrite (save_config_unfold _ _ _ _ (not_for_project_registered _ Hd)).
  destruct (negb _ && b) eqn:Eg; [discriminate|]. cbv zeta.
  destruct (mkdir_exist_ok (parent (target_file b c)) fs) as [[[]|e1] fs1] eqn:Em;
    [|discriminate].
  destruct (unflatten (update (target_config b c) (_dirty c))) as [toml|e2] eqn:Eu;
    [|discriminate].
  destruct (write_text (target_file b c) (dumps toml) fs1) as [[[]|e3] fs2] eqn:Ew;
    [|discriminate].
  intros [= <- <-]. exists fs1, toml.
  split; [|repeat split; assumption].
  destruct b; [right | now left].
  rewrite andb_true_r in Eg. apply negb_false_iff, Nat.eqb_eq in Eg.
  now apply length_zero_iff_nil.
Qed.

Lemma files_differ c b :
  files_in_place home c -> target_file (negb b) c <> target_file b c.
Proof.
  intros [Hh Hp] E. unfold target_file in E.
  destruct b; cbn [negb] in E; rewrite Hh, Hp in E;
    apply child_inj in E; destruct E as [_ E]; discriminate.
Qed.

(** ** Saving *)

(** C4, as the code has it.  On a store whose [_dirty] holds a
    project-restricted key, [save_config(True)] raises the [ValueError]
    whose message joins exactly the restricted keys of [_dirty], and leaves
    the object and the files as they were.  [save_config(False)] is never
    refused with that error; when no key of the home layer with [_dirty]
    merged in is the start of another and the file system lets the home file
    be written, it returns, the home file holds the serialized home layer,
    and [_dirty] is empty. *)
Theorem C4_restricted_key_guard c fs :
  reachable home user_cache_dir pypi_source parse dumps c ->
  (exists k, In k (keys (_dirty c)) /\ restricted k = true) ->
  let ks := filter restricted (keys (_dirty c)) in
  save true (c, fs) = (Raise (ValueError (save_error ks)), (c, fs))
  /\ (forall k, In k ks <-> In k (keys (_dirty c)) /\ restricted k = true)
  /\ (forall msg, fst (save false (c, fs)) <> Raise (ValueError msg))
  /\ (prefix_free (update (_home_config c) (_dirty c)) = true ->
      writable fs (_home_config_file c) = true ->
      exists c' fs' toml,
        save false (c, fs) = (Return tt, (c', fs'))
        /\ _home_config c' = update (_home_config c) (_dirty c)
        /\ unflatten (_home_config c') = Return toml
        /\ fs' (_home_config_file c) = Some (File (dumps toml))
        /\ _dirty c' = []).
Proof.
  intros Hr (k0 & Hin0 & Hk0) ks.
  destruct (reachable_invariant _ Hr) as [Hd _].
  assert (Hks := not_for_project_registered _ Hd). fold ks in Hks.
  assert (Hne : negb (Nat.eqb (length ks) 0) = true).
  { assert (Hin : In k0 ks) by (apply filter_In; auto).
    destruct ks; [destruct Hin | reflexivity]. }
  split; [|split; [|split]].
  - rewrite (save_config_unfold _ _ _ _ Hks), Hne. reflexivity.
  - intros k. apply filter_In.
  - intros msg. rewrite (save_config_unfold _ _ _ _ Hks), andb_false_r. cbv zeta.
    destruct (mkdir_exist_ok (parent (target_file false c)) fs) as [[[]|e1] fs1] eqn:Em.
    2:{ cbn. intros [= ->]. unfold mkdir_exist_ok in Em.
        destruct (fs (parent (target_file false c))) as [[t|]|];
          [discriminate | discriminate |].
        destruct (fs (parent (parent (target_file false c)))) as [[t|]|];
          discriminate. }
    destruct (unflatten (update (target_config false c) (_dirty c))) as [toml|e2] eqn:Eu.
    2:{ cbn. intros [= ->]. destruct (unflatten_from_raise _ _ _ Eu); discriminate. }
    destruct (write_text (target_file false c) (dumps toml) fs1) as [[[]|e3] fs2] eqn:Ew;
      cbn; [discriminate|].
    intros [= ->]. unfold write_text in Ew.
    destruct (fs1 (target_file false c)) as [[t|]|];
      destruct (fs1 (parent (target_file false c))) as [[t'|]|]; discriminate.
  - intros Hpf Hw. destruct (unflatten_total _ Hpf) as (toml & Hu).
    destruct (writable_ok _ _ (dumps toml) Hw) as (fs1 & Hm & Hwr).
    rewrite (save_config_unfold _ _ _ _ Hks), andb_false_r. cbv zeta.
    cbn [target_file target_config]. rewrite Hm, Hu, Hwr.
    eexists. eexists. exists toml. split; [reflexivity|]. cbn.
    repeat split; [exact Hu | apply put_same].
Qed.

(** C10. A [save_config] that returns has merged [_dirty] into the target
    layer, written the target file with the serialized layer and emptied
    [_dirty]; the merged view, the other layer and the other layer's file
    are as before, and so is every path except the target file and its
    parent directory. *)
Theorem C10_save_frame b c fs c' fs' :
  reachable home user_cache_dir pypi_source parse dumps c ->
  save b (c, fs) = (Return tt, (c', fs')) ->
  _data c' = _data c
  /\ target_config (negb b) c' = target_config (negb b) c
  /\ file_text fs' (target_file (negb b) c) = file_text fs (target_file (negb b) c)
  /\ target_config b c' = update (target_config b c) (_dirty c)
  /\ _dirty c' = []
  /\ (exists toml,
        unflatten (target_config b c') = Return toml
        /\ fs' (target_file b c) = Some (File (dumps toml)))
  /\ (forall q, q <> target_file b c -> file_text fs' q = file_text fs q)
  /\ (forall q, q <> target_file b c -> q <> parent (target_file b c) ->
                fs' q = fs q)
  /\ project_root c' = project_root c
  /\ _home_config_file c' = _home_config_file c
  /\ _project_config_file c' = _project_config_file c.
Proof.
  intros Hr Hsave. destruct (reachable_invariant _ Hr) as [Hd Hf].
  destruct (save_config_returns _ _ _ _ _ Hd Hsave)
    as (fs1 & toml & _ & Hm & Hu & Hw & ->).
  destruct (mkdir_frame _ _ _ _ Hm) as (Hm1 & Hm2 & _).
  destruct (write_text_inv _ _ _ _ _ Hw) as [Hw1 _]. specialize (Hw1 eq_refl).
  assert (Hft : forall q, q <> target_file b c -> file_text fs' q = file_text fs q).
  { intros q Hq. rewrite <- Hm2. unfold file_text. subst fs'.
    now rewrite put_other. }
  split; [now destruct b|]. split; [now destruct b|].
  split; [apply Hft, files_differ, Hf|].
  split; [now destruct b|]. split; [now destruct b|].
  split.
  { exists toml. split.
    - destruct b; exact Hu.
    - subst fs'. apply put_same. }
  split; [exact Hft|]. split.
  { intros q Hq Hq'. subst fs'. rewrite put_other by exact Hq. now apply Hm1. }
  now destruct b.
Qed.

(** The constructor joins ["config.toml"] to [HOME_CONFIG], which already
    ends with it. *)
Lemma home_config_file_path root fs c :
  init root fs = Return c ->
  _home_config_file c = home ++ [".pdm"; "config.toml"; "config.toml"]
  /\ _home_config_file c <> HOME_CONFIG home
  /\ parent (_home_config_file c) = HOME_CONFIG home.
Proof.
  intros Hinit. destruct (init_inv _ _ _ Hinit) as (_ & _ & ->). cbn.
  split; [|split].
  - unfold HOME_CONFIG, child. now rewrite <- !app_assoc.
  - apply child_neq.
  - apply parent_child.
Qed.

End StoreFacts.

(** ** Flattening, then splitting the dotted keys again *)

Lemma keys_prefixed k es : keys (map (prefix_entry k) es) = map (dotted k) (keys es).
Proof. unfold keys. rewrite !map_map. reflexivity. Qed.

Lemma first_part_entries k v key :
  dot_free k = true -> In key (keys (flat_entries k v)) -> first_part key = k.
Proof.
  intros Hk. destruct v as [x|sub]; cbn [flat_entries].
  - intros [<-|[]]. now apply first_part_dot_free.
  - rewrite keys_prefixed, in_map_iff. intros (key' & <- & _).
    now apply first_part_dotted.
Qed.

Lemma nodup_entries k v : NoDup (keys (flat_entries k v)).
Proof.
  destruct v as [x|sub]; cbn [flat_entries].
  - constructor; [intros [] | constructor].
  - rewrite keys_prefixed. apply Injective_map_NoDup.
    + intros a b. apply dotted_inj.
    + apply nodup_get_item.
Qed.

(** One step of the walk over a table with dot-free, distinct keys adds the
    entries of the item at the end of [result]. *)
Lemma walk_plain t :
  plain t ->
  forall acc,
    (forall key, In key (keys acc) -> ~ In (first_part key) (keys t)) ->
    fold_left (fun result kv => update result (entries_of kv)) t acc
    = acc ++ flat_map entries_of t.
Proof.
  assert (Hstep : forall k v rest acc,
             dot_free k = true -> ~ In k (keys rest) ->
             (forall key, In key (keys acc) ->
                          ~ In (first_part key) (keys ((k, v) :: rest))) ->
             update acc (flat_entries k v) = acc ++ flat_entries k v
             /\ forall key, In key (keys (acc ++ flat_entries k v)) ->
                            ~ In (first_part key) (keys rest)).
  { intros k v rest acc Hk Hfresh Hacc. split.
    - apply update_fresh; [apply nodup_entries|].
      intros key Hin Hin'. apply (Hacc key Hin').
      rewrite (first_part_entries k v key Hk Hin). now left.
    - intros key. unfold keys at 1. rewrite map_app, in_app_iff.
      intros [Hin|Hin].
      + intros Hr. apply (Hacc key Hin). now right.
      + now rewrite (first_part_entries k v key Hk Hin). }
  induction 1 as [|k x rest Hk Hfresh _ IH|k sub rest Hk Hfresh _ _ _ _ IH];
    intros acc Hacc.
  - cbn. now rewrite app_nil_r.
  - destruct (Hstep k (Leaf x) rest acc Hk Hfresh Hacc) as [E Hacc'].
    cbn [fold_left flat_map].
    change (entries_of (k, Leaf x)) with (flat_entries k (Leaf x)).
    rewrite E, (IH _ Hacc'), <- app_assoc. reflexivity.
  - destruct (Hstep k (Table sub) rest acc Hk Hfresh Hacc) as [E Hacc'].
    cbn [fold_left flat_map].
    change (entries_of (k, Table sub)) with (flat_entries k (Table sub)).
    rewrite E, (IH _ Hacc'), <- app_assoc. reflexivity.
Qed.

Lemma get_item_plain t : plain t -> get_item t = flat_map entries_of t.
Proof.
  intros Hp. rewrite get_item_unfold.
  apply (walk_plain t Hp []). intros key [].
Qed.

Lemma get_item_not_nil t : plain t -> t <> [] -> get_item t <> [].
Proof.
  intros Hp. rewrite (get_item_plain t Hp).
  induction Hp as [|k x rest _ _ _ _|k sub rest Hk _ Hne Hsub IHsub _ _];
    intros Ht; [congruence | discriminate |].
  cbn [flat_map].
  change (entries_of (k, Table sub)) with (map (prefix_entry k) (get_item sub)).
  rewrite (get_item_plain sub Hsub). specialize (IHsub Hne).
  destruct (flat_map entries_of sub); [congruence | discriminate].
Qed.

(** A key prefixed with a dot-free [k] is assigned below [k]: in the table
    found there, or in a new one when [k] is not there yet. *)
Lemma assign_key_prefixed k e T :
  dot_free k = true ->
  assign_key T (prefix_entry k e)
  = match get k T with
    | None => obind (assign_key [] e) (fun sub => Return (set k (Table sub) T))
    | Some (Table old) =>
        obind (assign_key old e) (fun sub => Return (set k (Table sub) T))
    | Some (Leaf _) =>
        Raise match removelast (split_dot (fst e)) with
              | [] => TypeError
              | _ :: _ => AttributeError
              end
    end.
Proof.
  intros Hk. unfold assign_key. cbn [prefix_entry fst snd].
  rewrite (split_dot_dotted k (fst e) Hk).
  assert (Hne := split_dot_not_nil (fst e)).
  destruct (split_dot (fst e)) as [|p ps]; [congruence|].
  change (removelast (k :: p :: ps)) with (k :: removelast (p :: ps)).
  change (List.last (k :: p :: ps) EmptyString)
    with (List.last (p :: ps) EmptyString).
  reflexivity.
Qed.

Lemma unflatten_prefixed_into k es :
  dot_free k = true ->
  forall T old,
    get k T = Some (Table old) ->
    unflatten_from T (map (prefix_entry k) es)
    = obind (unflatten_from old es) (fun new => Return (set k (Table new) T)).
Proof.
  intros Hk. induction es as [|e es IH]; intros T old HT.
  - cbn. now rewrite set_unchanged.
  - cbn [map unflatten_from]. rewrite (assign_key_prefixed k e T Hk), HT.
    destruct (assign_key old e) as [mid|err]; cbn [obind]; [|reflexivity].
    rewrite (IH (set k (Table mid) T) mid) by apply get_set_same.
    destruct (unflatten_from mid es) as [new|err]; cbn [obind]; [|reflexivity].
    now rewrite set_set.
Qed.

Lemma unflatten_prefixed_new k es T :
  dot_free k = true -> get k T = None -> es <> [] ->
  unflatten_from T (map (prefix_entry k) es)
  = obind (unflatten_from [] es) (fun new => Return (set k (Table new) T)).
Proof.
  intros Hk HT Hne. destruct es as [|e es]; [congruence|].
  cbn [map unflatten_from]. rewrite (assign_key_prefixed k e T Hk), HT.
  destruct (assign_key [] e) as [mid|err]; cbn [obind]; [|reflexivity].
  rewrite (unflatten_prefixed_into k es Hk (set k (Table mid) T) mid)
    by apply get_set_same.
  destruct (unflatten_from mid es) as [new|err]; cbn [obind]; [|reflexivity].
  now rewrite set_set.
Qed.

(** Splitting the flattened entries of a plain table [t] into a document
    that has none of its keys yet appends [t], item by item, in order. *)
Lemma unflatten_entries t :
  plain t ->
  forall T,
    (forall k, In k (keys t) -> ~ In k (keys T)) ->
    unflatten_from T (flat_map entries_of t) = Return (T ++ t).
Proof.
  induction 1 as [|k x rest Hk Hfresh _ IH|k sub rest Hk Hfresh Hne Hsub IHsub _ IH];
    intros T HT.
  - cbn. now rewrite app_nil_r.
  - assert (HkT : ~ In k (keys T)) by (apply HT; now left).
    cbn [flat_map]. change (entries_of (k, Leaf x)) with [(k, x)].
    cbn [app unflatten_from]. unfold assign_key. cbn [fst snd].
    rewrite (split_dot_dot_free k Hk). cbn [removelast List.last assign_path obind].
    rewrite (set_fresh k (Leaf x) T HkT), IH.
    + now rewrite <- app_assoc.
    + intros k' Hin. unfold keys. rewrite map_app, in_app_iff.
      intros [Hin'|[<-|[]]]; [|now apply Hfresh].
      apply (HT k'); [now right | exact Hin'].
  - assert (HkT : ~ In k (keys T)) by (apply HT; now left).
    cbn [flat_map].
    change (entries_of (k, Table sub)) with (map (prefix_entry k) (get_item sub)).
    rewrite unflatten_from_app.
    rewrite (unflatten_prefixed_new k (get_item sub) T Hk)
      by (try apply get_none_iff; auto using get_item_not_nil).
    rewrite (get_item_plain sub Hsub), (IHsub []) by (intros k' _ []).
    cbn [app obind]. rewrite (set_fresh k (Table sub) T HkT), IH.
    + now rewrite <- app_assoc.
    + intros k' Hin. unfold keys. rewrite map_app, in_app_iff.
      intros [Hin'|[<-|[]]]; [|now apply Hfresh].
      apply (HT k'); [now right | exact Hin'].
Qed.

Lemma plain_round_trip D : plain D -> unflatten (get_item D) = Return D.
Proof.
  intros Hp. unfold unflatten. rewrite (get_item_plain D Hp).
  apply (unflatten_entries D Hp []). intros k _ [].
Qed.

(** ** Documents by induction, and the shapes as derivations *)

Lemma doc_table_ind (P : doc -> Prop) (Q : table -> Prop) :
  (forall v, P (Leaf v)) ->
  (forall t, Q t -> P (Table t)) ->
  Q [] ->
  (forall k d rest, P d -> Q rest -> Q ((k, d) :: rest)) ->
  forall d, P d.
Proof.
  intros Hleaf Htable Hnil Hcons.
  fix IH 1. intros [v|items].
  - apply Hleaf.
  - apply Htable. revert items. fix IHl 1. intros [|[k d] rest].
    + exact Hnil.
    + apply Hcons; [apply IH | apply IHl].
Qed.

(** Induction on a table: its first item is a leaf or a table, for which the
    property is known, and so it is for the items after it. *)
Lemma table_ind (Q : table -> Prop) :
  Q [] ->
  (forall k x rest, Q rest -> Q ((k, Leaf x) :: rest)) ->
  (forall k sub rest, Q sub -> Q rest -> Q ((k, Table sub) :: rest)) ->
  forall t, Q t.
Proof.
  intros Hnil Hleaf Htab t.
  refine (doc_table_ind
            (fun d => match d with Leaf _ => True | Table t' => Q t' end) Q
            _ _ Hnil _ (Table t)).
  - intros v. exact I.
  - intros t' H. exact H.
  - intros k [x|sub] rest Hd Hrest; [now apply Hleaf | now apply Htab].
Qed.

Lemma all_tables_unfold P t :
  all_tables P (Table t) = P t && forallb (fun kv => all_tables P (snd kv)) t.
Proof.
  cbn [all_tables]. f_equal.
  induction t as [|[k v] t IH]; [reflexivity|].
  cbn [forallb snd]. now rewrite IH.
Qed.

Lemma distinct_cons k l : distinct (k :: l) = true -> ~ In k l /\ distinct l = true.
Proof.
  cbn [distinct]. intros H. apply andb_true_iff in H. destruct H as [Hk Hl].
  split; [|exact Hl]. intros Hin. apply negb_true_iff in Hk.
  assert (E : existsb (String.eqb k) l = true).
  { apply existsb_exists. exists k. split; [exact Hin | apply String.eqb_refl]. }
  congruence.
Qed.

Lemma plain_of_shape D :
  unique_keys D = true -> dot_free_keys D = true -> no_empty_table D = true ->
  plain D.
Proof.
  unfold unique_keys, dot_free_keys, no_empty_table.
  induction D as [|k x rest IH|k sub rest IHsub IH] using table_ind;
    [constructor| |];
    rewrite !(all_tables_unfold _ (_ :: rest)); cbn [keys map fst forallb snd];
    rewrite !andb_true_iff;
    intros [Hu [Huv Hur]] [[Hdk Hd] [Hdv Hdr]] [[Hev He] [Hnv Hnr]];
    apply distinct_cons in Hu; destruct Hu as [Hfresh Hu];
    assert (Hrest : plain rest)
      by (apply IH; rewrite all_tables_unfold; apply andb_true_iff; auto).
  - now constructor.
  - constructor; auto. destruct sub; [discriminate Hev | discriminate].
Qed.

(** ** Equality of documents *)

Lemma value_eqb_refl v : value_eqb v v = true.
Proof.
  destruct v as [s|b|n]; cbn.
  - apply String.eqb_refl.
  - now destruct b.
  - apply Z.eqb_refl.
Qed.

Lemma doc_eqb_tables ta tb :
  doc_eqb (Table ta) (Table tb)
  = Nat.eqb (length ta) (length tb)
    && forallb (fun kv => match get (fst kv) tb with
                          | Some y => doc_eqb (snd kv) y
                          | None => false
                          end) ta.
Proof.
  cbn [doc_eqb]. f_equal.
  induction ta as [|[k x] ta IH]; [reflexivity|].
  cbn [forallb fst snd]. now rewrite IH.
Qed.

Lemma table_eqb_refl t : plain t -> table_eqb t t = true.
Proof.
  unfold table_eqb.
  assert (Hcons : forall k v rest,
             ~ In k (keys rest) ->
             doc_eqb v v = true ->
             doc_eqb (Table rest) (Table rest) = true ->
             doc_eqb (Table ((k, v) :: rest)) (Table ((k, v) :: rest)) = true).
  { intros k v rest Hfresh Hv Hrest. rewrite doc_eqb_tables in *.
    apply andb_true_iff in Hrest. destruct Hrest as [_ Hrest].
    rewrite Nat.eqb_refl. cbn [andb forallb fst snd get].
    rewrite String.eqb_refl, Hv. cbn [andb].
    rewrite forallb_forall in *. intros [k' y] Hin. cbn [fst snd].
    destruct (String.eqb_spec k' k) as [->|Hne].
    - exfalso. apply Hfresh. change (In (fst (k, y)) (map fst rest)).
      now apply in_map.
    - exact (Hrest (k', y) Hin). }
  induction 1 as [|k x rest _ Hfresh _ IH|k sub rest _ Hfresh _ _ IHsub _ IH].
  - reflexivity.
  - apply Hcons; auto. apply value_eqb_refl.
  - apply Hcons; auto.
Qed.

(** ** Key paths of a plain document *)

Lemma key_paths_cons k v rest :
  key_paths ((k, v) :: rest)
  = (k, is_table v)
      :: map (fun e => (dotted k (fst e), snd e)) (key_paths_node v)
      ++ key_paths rest.
Proof. reflexivity. Qed.

Lemma dotted_not_dot_free k s : dot_free k = true -> dotted k s <> k.
Proof.
  intros Hk E. apply (f_equal split_dot) in E.
  rewrite (split_dot_dotted k s Hk), (split_dot_dot_free k Hk) in E.
  injection E as E. now apply (split_dot_not_nil s).
Qed.

(** In a plain document every node has a key path of its own, and the path
    starts with a key of the root table. *)
Lemma key_paths_plain t :
  plain t ->
  NoDup (map fst (key_paths t))
  /\ forall p, In p (map fst (key_paths t)) -> In (first_part p) (keys t).
Proof.
  induction 1 as [|k x rest Hk Hfresh _ [IHn IHf]
                  |k sub rest Hk Hfresh _ _ [IHsn _] _ [IHn IHf]].
  - split; [constructor | intros p []].
  - rewrite key_paths_cons. cbn [key_paths_node map app fst]. split.
    + constructor; [|exact IHn]. intros Hin. apply IHf in Hin.
      now rewrite (first_part_dot_free k Hk) in Hin.
    + intros p [<-|Hin].
      * rewrite (first_part_dot_free k Hk). now left.
      * right. now apply IHf.
  - rewrite key_paths_cons. cbn [map fst]. rewrite map_app, map_map. cbn [fst].
    change (key_paths_node (Table sub)) with (key_paths sub).
    assert (Hpre : forall p,
               In p (map (fun e => dotted k (fst e)) (key_paths sub)) ->
               first_part p = k /\ p <> k).
    { intros p Hin. apply in_map_iff in Hin. destruct Hin as (e & <- & _).
      split; [now apply first_part_dotted | now apply dotted_not_dot_free]. }
    split.
    + constructor.
      * rewrite in_app_iff. intros [Hin|Hin].
        -- now destruct (Hpre k Hin).
        -- apply IHf in Hin. now rewrite (first_part_dot_free k Hk) in Hin.
      * apply NoDup_app.
        -- rewrite <- (map_map fst (dotted k)).
           apply Injective_map_NoDup; [|exact IHsn].
           intros a b. apply dotted_inj.
        -- exact IHn.
        -- intros p Hin Hin'. destruct (Hpre p Hin) as [E _].
           apply IHf in Hin'. now rewrite E in Hin'.
    + intros p [<-|Hin].
      * rewrite (first_part_dot_free k Hk). now left.
      * apply in_app_iff in Hin. destruct Hin as [Hin|Hin].
        -- destruct (Hpre p Hin) as [-> _]. now left.
        -- right. now apply IHf.
Qed.

Lemma nodup_fst_same {A B : Type} (l : list (A * B)) p q :
  NoDup (map fst l) -> In p l -> In q l -> fst p = fst q -> p = q.
Proof.
  induction l as [|x l IH]; cbn [map]; [intros _ []|].
  intros Hnd Hp Hq E. inversion Hnd as [|? ? Hx Hnd']; subst.
  destruct Hp as [<-|Hp]; destruct Hq as [<-|Hq].
  - reflexivity.
  - exfalso. apply Hx. rewrite E. now apply in_map.
  - exfalso. apply Hx. rewrite <- E. now apply in_map.
  - now apply IH.
Qed.

(** So a plain document meets the side condition of the round trip: no key
    path is both a branch and a leaf. *)
Lemma plain_branch_xor_leaf D : plain D -> branch_xor_leaf D = true.
Proof.
  intros Hp. destruct (key_paths_plain D Hp) as [Hnd _].
  unfold branch_xor_leaf. apply forallb_forall. intros p Hp'.
  apply negb_true_iff. destruct (existsb _ (key_paths D)) eqn:E; [|reflexivity].
  apply existsb_exists in E. destruct E as (q & Hq & E).
  apply andb_true_iff in E. destruct E as [E1 E2].
  apply String.eqb_eq in E1.
  rewrite (nodup_fst_same (key_paths D) p q Hnd Hp' Hq E1) in E2.
  now rewrite xorb_nilpotent in E2.
Qed.

(** C2, as the code has it.  For every document whose keys hold no dot, whose
    tables hold no key twice, and whose tables below the root are not empty,
    no key path is both a branch and a leaf, and flattening and then
    splitting the dotted keys again returns the document itself, items in
    their order; so the result is equal to it. *)
Theorem C2_round_trip_plain D :
  unique_keys D = true -> dot_free_keys D = true -> no_empty_table D = true ->
  branch_xor_leaf D = true
  /\ exists D',
       unflatten (get_item D) = Return D' /\ D' = D /\ table_eqb D' D = true.
Proof.
  intros Hu Hd He. assert (Hp := plain_of_shape D Hu Hd He).
  split; [now apply plain_branch_xor_leaf|].
  exists D. split; [now apply plain_round_trip|].
  split; [reflexivity | now apply table_eqb_refl].
Qed.

(** * The definitions at work *)

Section Installed.

Local Abbreviation init :=
  (__init__ Demo.home Demo.user_cache_dir Demo.pypi_source Demo.parse).
Local Abbreviation save := (save_config Demo.dumps).
Local Abbreviation reachable :=
  (reachable Demo.home Demo.user_cache_dir Demo.pypi_source Demo.parse Demo.dumps).

Example init_fresh : init Demo.root Demo.fresh_fs = Return Demo.fresh_config.
Proof. vm_compute. reflexivity. Qed.

Example init_used : init Demo.root Demo.used_fs = Return Demo.used_config.
Proof. vm_compute. reflexivity. Qed.

(** The precedence example of the specification, on the dictionaries. *)
Example precedence_a_b :
  update (update [("a", VInt 1)] [("a", VInt 2); ("b", VInt 3)]) [("a", VInt 4)]
  = [("a", VInt 4); ("b", VInt 3)].
Proof. reflexivity. Qed.

Lemma reachable_fresh : reachable Demo.fresh_config.
Proof. apply (@reach_init _ _ _ _ _ Demo.root Demo.fresh_fs). exact init_fresh. Qed.

Lemma reachable_cache_dir_set : reachable Demo.cache_dir_set.
Proof.
  apply (@reach_call _ _ _ _ _ Demo.fresh_config (Set_ "cache_dir" (VStr "/tmp/x"))
           Demo.fresh_fs None Demo.cache_dir_set Demo.fresh_fs reachable_fresh).
  reflexivity.
Qed.

Lemma reachable_python_path_set : reachable Demo.python_path_set.
Proof.
  apply (@reach_call _ _ _ _ _ Demo.fresh_config
           (Set_ "python.path" (VStr "/usr/bin/python3"))
           Demo.fresh_fs None Demo.python_path_set Demo.fresh_fs reachable_fresh).
  reflexivity.
Qed.

(** C1 on the installation with both files: the project file turns
    [python.use_pyenv] off, the home file sets [cache_dir] and [pypi.url],
    the defaults give [pypi.verify_ssl]. *)
Lemma C1_merge_precedence_witness :
  init Demo.root Demo.used_fs = Return Demo.used_config
  /\ get "python.use_pyenv" (_data Demo.used_config) = Some (VBool false)
  /\ get "cache_dir" (_data Demo.used_config) = Some (VInt 1)
  /\ get "pypi.verify_ssl" (_data Demo.used_config) = Some (VBool true).
Proof.
  assert (H : init Demo.root Demo.used_fs = Return Demo.used_config)
    by (vm_compute; reflexivity).
  split; [exact H|].
  destruct (C1_merge_precedence Demo.home Demo.user_cache_dir Demo.pypi_source
              Demo.parse Demo.root Demo.used_fs Demo.used_config H)
    as (_ & _ & _ & Hget).
  rewrite !Hget. repeat split.
Defined.

(** C7 on the installation without configuration files. *)
Lemma C7_missing_files_witness :
  load_config Demo.parse Demo.fresh_fs Demo.project_file = Return []
  /\ exists c, init Demo.root Demo.fresh_fs = Return c
               /\ _data c = Demo.defaults.
Proof.
  destruct (C7_missing_files Demo.home Demo.user_cache_dir Demo.pypi_source
              Demo.parse Demo.root Demo.fresh_fs Demo.project_file)
    as [Hload Hinit].
  split; [exact (Hload eq_refl)|].
  destruct (Hinit eq_refl eq_refl) as (c & Hc & Hdata & _).
  exists c. split; [exact Hc | exact Hdata].
Defined.

(** C6: ["True"] is stored as the boolean, ["no"] as it is. *)
Lemma C6_set_coerces_booleans_witness :
  (exists c',
     __setitem__ "python.use_pyenv" (VStr "True") (Demo.fresh_config, Demo.fresh_fs)
     = (Return tt, (c', Demo.fresh_fs))
     /\ get "python.use_pyenv" (_dirty c') = Some (VBool true)
     /\ get "python.use_pyenv" (_data c') = Some (VBool true))
  /\ (exists c',
        __setitem__ "python.use_pyenv" (VStr "no") (Demo.fresh_config, Demo.fresh_fs)
        = (Return tt, (c', Demo.fresh_fs))
        /\ get "python.use_pyenv" (_dirty c') = Some (VStr "no")
        /\ get "python.use_pyenv" (_data c') = Some (VStr "no")).
Proof.
  split.
  - exact (C6_set_coerces_booleans "python.use_pyenv" (VStr "True")
             Demo.fresh_config Demo.fresh_fs eq_refl).
  - exact (C6_set_coerces_booleans "python.use_pyenv" (VStr "no")
             Demo.fresh_config Demo.fresh_fs eq_refl).
Defined.

(** C4 after [config["cache_dir"] = "/tmp/x"]: the project save is refused
    and names [cache_dir], the home save goes through. *)
Lemma C4_restricted_key_guard_witness :
  save true (Demo.cache_dir_set, Demo.fresh_fs)
  = (Raise (ValueError "Config item cache_dir can not be saved in project config."),
     (Demo.cache_dir_set, Demo.fresh_fs))
  /\ exists c' fs',
       save false (Demo.cache_dir_set, Demo.fresh_fs) = (Return tt, (c', fs'))
       /\ _home_config c' = [("cache_dir", VStr "/tmp/x")]
       /\ fs' Demo.home_file = Some (File "cache_dir")
       /\ _dirty c' = [].
Proof.
  destruct (C4_restricted_key_guard Demo.home Demo.user_cache_dir Demo.pypi_source
              Demo.parse Demo.dumps Demo.cache_dir_set Demo.fresh_fs
              reachable_cache_dir_set
              (ex_intro _ "cache_dir" (conj (or_introl eq_refl) eq_refl)))
    as (Hproject & _ & _ & Hhome).
  split; [exact Hproject|].
  destruct (Hhome eq_refl eq_refl) as (c' & fs' & toml & Hs & Hl & Hu & Hf & Hd).
  exists c', fs'. rewrite Hl in Hu. injection Hu as <-.
  repeat split; assumption.
Defined.

(** C10 after [config["python.path"] = "/usr/bin/python3"], saved to the
    project. *)
Lemma C10_save_frame_witness :
  save true (Demo.python_path_set, Demo.fresh_fs)
  = (Return tt,
     (Demo.python_path_saved,
      put Demo.project_file (File "python.path") Demo.fresh_fs))
  /\ _data Demo.python_path_saved = _data Demo.python_path_set
  /\ _home_config Demo.python_path_saved = []
  /\ _project_config Demo.python_path_saved
     = [("python.path", VStr "/usr/bin/python3")]
  /\ _dirty Demo.python_path_saved = [].
Proof.
  assert (H : save true (Demo.python_path_set, Demo.fresh_fs)
              = (Return tt,
                 (Demo.python_path_saved,
                  put Demo.project_file (File "python.path") Demo.fresh_fs)))
    by reflexivity.
  split; [exact H|].
  destruct (C10_save_frame Demo.home Demo.user_cache_dir Demo.pypi_source
              Demo.parse Demo.dumps true Demo.python_path_set Demo.fresh_fs
              Demo.python_path_saved
              (put Demo.project_file (File "python.path") Demo.fresh_fs)
              reachable_python_path_set H)
    as (Hdata & Hother & _ & Htarget & Hdirty & _).
  repeat split; assumption.
Defined.

(** C3. The home layer is read from, and written to, [config.toml] inside a
    directory that is itself named [config.toml]: a home configuration file
    at [~/.pdm/config.toml] is not loaded (its [cache_dir] is not in the
    merged view), and it makes every home save fail, because [mkdir] meets a
    regular file where it wants a directory. *)
Theorem C3_home_file_is_nested :
  HOME_CONFIG Demo.home = ["home"; "alice"; ".pdm"; "config.toml"]
  /\ load_config Demo.parse Demo.documented_fs (HOME_CONFIG Demo.home)
     = Return [("cache_dir", VInt 1); ("pypi.url", VInt 2)]
  /\ init Demo.root Demo.documented_fs = Return Demo.fresh_config
  /\ _home_config_file Demo.fresh_config
     = ["home"; "alice"; ".pdm"; "config.toml"; "config.toml"]
  /\ _home_config Demo.fresh_config = []
  /\ get "cache_dir" (_data Demo.fresh_config) = Some (VStr Demo.user_cache_dir)
  /\ save false (Demo.cache_dir_set, Demo.documented_fs)
     = (Raise FileExistsError,
        (set_home_config [("cache_dir", VStr "/tmp/x")] Demo.cache_dir_set,
         Demo.documented_fs)).
Proof. repeat split. Qed.

(** C2 on a document with two sections. *)
Lemma C2_round_trip_plain_witness :
  get_item Demo.nested = Demo.nested_flat
  /\ unflatten Demo.nested_flat = Return Demo.nested
  /\ table_eqb Demo.nested Demo.nested = true.
Proof.
  destruct (C2_round_trip_plain Demo.nested eq_refl eq_refl eq_refl)
    as (_ & D' & Hun & -> & Heq).
  split; [reflexivity|]. split; [exact Hun | exact Heq].
Defined.

(** C2 as stated fails on two documents in which no key path is both a
    branch and a leaf.  A table without entries leaves nothing in the flat
    mapping, so it is gone after the round trip; a key with a dot in it comes
    back as a table holding the part after the dot. *)
Lemma C2_round_trip_counterexample :
  (unique_keys Demo.empty_section = true
   /\ branch_xor_leaf Demo.empty_section = true
   /\ get_item Demo.empty_section = []
   /\ unflatten (get_item Demo.empty_section) = Return []
   /\ table_eqb [] Demo.empty_section = false)
  /\ (unique_keys Demo.quoted_key = true
      /\ branch_xor_leaf Demo.quoted_key = true
      /\ get_item Demo.quoted_key = [("a.b", VInt 1)]
      /\ unflatten (get_item Demo.quoted_key)
         = Return [("a", Table [("b", Leaf (VInt 1))])]
      /\ table_eqb [("a", Table [("b", Leaf (VInt 1))])] Demo.quoted_key = false).
Proof. repeat split. Qed.

(** C5 on the store without configuration files: a default is read back,
    a registry key without a default and an unknown key are not, and only
    the unknown key cannot be set. *)
Lemma C5_unknown_key_witness :
  __getitem__ "python.use_pyenv" (Demo.fresh_config, Demo.fresh_fs)
  = (Return (VBool true), (Demo.fresh_config, Demo.fresh_fs))
  /\ __getitem__ "python.path" (Demo.fresh_config, Demo.fresh_fs)
     = (Raise (NoConfigError "python.path"), (Demo.fresh_config, Demo.fresh_fs))
  /\ __setitem__ "not.a.real.key" (VInt 1) (Demo.fresh_config, Demo.fresh_fs)
     = (Raise (NoConfigError "not.a.real.key"), (Demo.fresh_config, Demo.fresh_fs))
  /\ fst (__setitem__ "python.path" (VInt 1) (Demo.fresh_config, Demo.fresh_fs))
     = Return tt.
Proof.
  destruct (C5_unknown_key "python.use_pyenv" (VInt 1) Demo.fresh_config Demo.fresh_fs)
    as (Hget & _).
  destruct (C5_unknown_key "python.path" (VInt 1) Demo.fresh_config Demo.fresh_fs)
    as (_ & Hmiss & _ & _ & _ & Hset).
  destruct (C5_unknown_key "not.a.real.key" (VInt 1) Demo.fresh_config Demo.fresh_fs)
    as (_ & _ & _ & Hunknown & _).
  split; [exact (proj1 (Hget (VBool true)) eq_refl)|].
  split; [exact (proj1 Hmiss eq_refl)|].
  split; [exact (proj1 Hunknown eq_refl) | exact (Hset eq_refl)].
Defined.

(** C9 on the store with [cache_dir] set: the key is registered, and the
    lookups of [save_config] find the restricted key. *)
Lemma C9_dirty_keys_registered_witness :
  dirty_in_registry Demo.cache_dir_set
  /\ not_for_project (keys (_dirty Demo.cache_dir_set)) = Return ["cache_dir"].
Proof.
  destruct (C9_dirty_keys_registered Demo.home Demo.user_cache_dir
              Demo.pypi_source Demo.parse Demo.dumps) as (_ & _ & Hreach).
  destruct (Hreach Demo.cache_dir_set reachable_cache_dir_set) as (Hd & Hks & _).
  split; [exact Hd | exact Hks].
Defined.

Lemma reachable_clash_set : reachable Demo.clash_set.
Proof.
  assert (H0 : reachable
                 (mkConfig Demo.root (Demo.defaults ++ [("python", VInt 1)]) []
                    Demo.project_file Demo.home_file [] [("python", VInt 1)])).
  { apply (@reach_init _ _ _ _ _ Demo.root Demo.clash_fs). vm_compute. reflexivity. }
  assert (H1 : reachable
                 (mkConfig Demo.root
                    [ ("cache_dir", VStr "/tmp/x"); ("python.use_pyenv", VBool true);
                      ("pypi.url", VStr "https://pypi.org/simple");
                      ("pypi.verify_ssl", VBool true); ("python", VInt 1) ]
                    [ ("cache_dir", VStr "/tmp/x") ]
                    Demo.project_file Demo.home_file [] [("python", VInt 1)])).
  { apply (@reach_call _ _ _ _ _ _ (Set_ "cache_dir" (VStr "/tmp/x"))
             Demo.clash_fs None _ Demo.clash_fs H0). reflexivity. }
  apply (@reach_call _ _ _ _ _ _ (Set_ "python.path" (VStr "/usr/bin/python3"))
           Demo.clash_fs None _ Demo.clash_fs H1). reflexivity.
Qed.

(** C4 as stated fails on two stores with [cache_dir] in [_dirty]: the
    project save is refused as it says, but the home save raises as well.
    In the first, [~/.pdm] is a regular file and [mkdir] raises; in the
    second, the home layer holds the plain key [python] beside the new
    [python.path], and the conversion to nested form raises.  Both times the
    home layer has taken [_dirty] in already, no file is written, and
    [_dirty] is not cleared. *)
Lemma C4_home_save_counterexample :
  (init Demo.root Demo.blocked_fs = Return Demo.fresh_config
   /\ __setitem__ "cache_dir" (VStr "/tmp/x") (Demo.fresh_config, Demo.blocked_fs)
      = (Return tt, (Demo.cache_dir_set, Demo.blocked_fs))
   /\ restricted "cache_dir" = true
   /\ save false (Demo.cache_dir_set, Demo.blocked_fs)
      = (Raise NotADirectoryError,
         (set_home_config [("cache_dir", VStr "/tmp/x")] Demo.cache_dir_set,
          Demo.blocked_fs)))
  /\ (reachable Demo.clash_set
      /\ restricted "cache_dir" = true
      /\ writable Demo.clash_fs (_home_config_file Demo.clash_set) = true
      /\ save false (Demo.clash_set, Demo.clash_fs)
         = (Raise TypeError,
            (set_home_config
               [ ("python", VInt 1); ("cache_dir", VStr "/tmp/x");
                 ("python.path", VStr "/usr/bin/python3") ] Demo.clash_set,
             Demo.clash_fs))).
Proof.
  split; [repeat split|]. split; [exact reachable_clash_set | repeat split].
Qed.

End Installed.

(** * More of the class *)

(** ** Dictionaries, continued *)

Section MoreDictFacts.
Context {V : Type}.
Implicit Types (d o : dict V) (k : string) (v : V).

Lemma contains_true_iff k d : contains k d = true <-> In k (keys d).
Proof.
  unfold contains. destruct (get k d) as [v|] eqn:E.
  - split; [intros _ | reflexivity].
    destruct (in_dec string_dec k (keys d)) as [Hin|Hnin]; [exact Hin|].
    apply get_none_iff in Hnin. congruence.
  - apply get_none_iff in E. split; [discriminate | tauto].
Qed.

Lemma set_present k v d : contains k d = true -> keys (set k v d) = keys d.
Proof.
  unfold contains.
  induction d as [|[k' v'] d IH]; cbn [get set]; [discriminate|].
  destruct (String.eqb_spec k k') as [->|Hne]; cbn [keys map fst].
  - reflexivity.
  - intros H. f_equal. now apply IH.
Qed.

Lemma set_absent k v d : contains k d = false -> set k v d = d ++ [(k, v)].
Proof.
  intros H. apply set_fresh. intros Hin. apply contains_true_iff in Hin.
  congruence.
Qed.

Lemma in_keys_update d o k :
  In k (keys (update d o)) <-> In k (keys d) \/ In k (keys o).
Proof.
  revert d. induction o as [|[k' v'] o IH]; intros d.
  - cbn. tauto.
  - rewrite update_cons, IH, keys_set. cbn. intuition congruence.
Qed.

(** Updating twice with the same dictionary is updating once. *)
Lemma update_twice d o : NoDup (keys o) -> update (update d o) o = update d o.
Proof.
  intros Hnd.
  assert (H : forall d', (forall k v, In (k, v) o -> get k d' = Some v) ->
                         update d' o = d').
  { clear. induction o as [|[k v] o IH]; intros d' Hd'; [reflexivity|].
    rewrite update_cons, set_unchanged by (apply Hd'; now left).
    apply IH. intros k' v' Hin. apply Hd'. now right. }
  apply H. intros k v Hin. rewrite get_update by exact Hnd.
  enough (E : get k o = Some v) by now rewrite E.
  clear H d. induction o as [|[k' v'] o IH]; [destruct Hin|].
  inversion Hnd as [|? ? Hk' Hnd']; subst. cbn [get].
  destruct Hin as [[= -> ->]|Hin].
  - now rewrite String.eqb_refl.
  - destruct (String.eqb_spec k k') as [->|Hne].
    + exfalso. apply Hk'. change (In (fst (k', v)) (map fst o)). now apply in_map.
    + now apply IH.
Qed.

End MoreDictFacts.

(** ** What one call does to the object *)

Section ClassFacts.

Variable home : path.
Variable user_cache_dir : string.
Variable pypi_source : dict value.
Variable parse : string -> option table.
Variable dumps : table -> string.

Local Abbreviation DEFAULT := (DEFAULT_CONFIG user_cache_dir pypi_source).
Local Abbreviation init := (__init__ home user_cache_dir pypi_source parse).
Local Abbreviation load := (load_config parse).
Local Abbreviation save := (save_config dumps).
Local Abbreviation reachable :=
  (reachable home user_cache_dir pypi_source parse dumps).

Lemma setitem_known key v c fs :
  contains key CONFIG_ITEMS = true ->
  __setitem__ key v (c, fs) = (Return tt, (after_set key v c, fs)).
Proof. intros H. unfold __setitem__. rewrite H. reflexivity. Qed.

Lemma setitem_unknown key v c fs :
  contains key CONFIG_ITEMS = false ->
  __setitem__ key v (c, fs) = (Raise (NoConfigError key), (c, fs)).
Proof. intros H. unfold __setitem__. rewrite H. reflexivity. Qed.

Lemma not_for_project_return l :
  forall ks, not_for_project l = Return ks -> ks = filter restricted l.
Proof.
  induction l as [|k l IH]; intros ks; cbn [not_for_project filter].
  - now intros [= <-].
  - unfold restricted at 1.
    destruct (get k CONFIG_ITEMS) as [item|]; [|discriminate].
    destruct (not_for_project l) as [ks'|e]; cbn [obind]; [|discriminate].
    intros [= <-]. now rewrite (IH ks' eq_refl).
Qed.

(** A call leaves the object and the files alone, or it is a [set] of a
    registry key, or it is a [save] that got past the guard: then [_dirty]
    is merged into the target layer, and emptied if the call returned; no
    regular file but the target file is touched. *)
Lemma exec_cases op c fs e c' fs' :
  exec dumps op (c, fs) = (e, (c', fs')) ->
  (c' = c /\ fs' = fs)
  \/ (exists key v,
        op = Set_ key v /\ contains key CONFIG_ITEMS = true
        /\ c' = after_set key v c /\ fs' = fs /\ e = None)
  \/ (exists b,
        op = Save b
        /\ (b = true -> filter restricted (keys (_dirty c)) = [])
        /\ ((c' = merged b c /\ e <> None)
            \/ (c' = set_dirty [] (merged b c) /\ e = None))
        /\ forall q, q <> target_file b c -> file_text fs' q = file_text fs q).
Proof.
  destruct op as [key|key v|b|key| |]; cbn [exec].
  - unfold __getitem__, bind, self, ret, raise. cbn [fst].
    destruct (get key (_data c)); intros [= <- <- <-]; auto.
  - destruct (contains key CONFIG_ITEMS) eqn:Ek.
    + rewrite (setitem_known key v c fs Ek). intros [= <- <- <-].
      right. left. exists key, v. auto.
    + rewrite (setitem_unknown key v c fs Ek). intros [= <- <- <-]. auto.
  - destruct (not_for_project (keys (_dirty c))) as [ks|e'] eqn:Eks.
    2:{ rewrite (save_config_keyerror dumps b c fs e' Eks).
        intros [= <- <- <-]. auto. }
    rewrite (save_config_unfold dumps b c fs ks Eks).
    apply not_for_project_return in Eks. subst ks.
    destruct (negb _ && b) eqn:Eg; [intros [= <- <- <-]; auto|].
    cbv zeta. fold (merged b c). intros H. right. right. exists b.
    split; [reflexivity|]. split.
    { intros ->. rewrite andb_true_r in Eg.
      apply negb_false_iff, Nat.eqb_eq in Eg. now apply length_zero_iff_nil. }
    destruct (mkdir_exist_ok (parent (target_file b c)) fs) as [[[]|e1] fs1] eqn:Em.
    2:{ injection H as <- <- <-. split; [left; split; [reflexivity|discriminate]|].
        intros q _. now destruct (mkdir_frame _ _ _ _ Em) as (_ & Hm & _). }
    destruct (mkdir_frame _ _ _ _ Em) as (_ & Hm & _).
    destruct (unflatten (update (target_config b c) (_dirty c))) as [toml|e2].
    2:{ injection H as <- <- <-. split; [left; split; [reflexivity|discriminate]|].
        intros q _. apply Hm. }
    destruct (write_text (target_file b c) (dumps toml) fs1) as [[[]|e3] fs2] eqn:Ew;
      destruct (write_text_inv _ _ _ _ _ Ew) as [Hw1 Hw2];
      injection H as <- <- <-.
    + split; [right; split; reflexivity|].
      intros q Hq. rewrite (Hw1 eq_refl), <- Hm. unfold file_text.
      now rewrite put_other.
    + split; [left; split; [reflexivity|discriminate]|].
      intros q _. rewrite (Hw2 e3 eq_refl). apply Hm.
  - unfold __delitem__, raise. cbn. intros [= <- <- <-]. auto.
  - unfold __len__, bind, self, ret. cbn. intros [= <- <- <-]. auto.
  - unfold __iter__, bind, self, ret. cbn. intros [= <- <- <-]. auto.
Qed.

Lemma nodup_default : NoDup (keys DEFAULT).
Proof.
  unfold DEFAULT_CONFIG. apply nodup_update. cbn.
  repeat constructor; cbn; intuition discriminate.
Qed.

Lemma init_well_kept root fs c : init root fs = Return c -> well_kept c.
Proof.
  intros Hinit. destruct (init_inv _ _ _ _ _ _ _ Hinit) as (Hp & Hh & ->).
  unfold well_kept. cbn [_data _dirty _home_config _project_config].
  split; [do 2 apply nodup_update; apply nodup_default|].
  split; [constructor|].
  split; [eapply nodup_load_config; eassumption|].
  split; [eapply nodup_load_config; eassumption|].
  intros k v [=].
Qed.

Lemma exec_well_kept op c fs e c' fs' :
  well_kept c -> exec dumps op (c, fs) = (e, (c', fs')) -> well_kept c'.
Proof.
  intros (Hdata & Hdirty & Hhome & Hproject & Hvis) Hexec.
  destruct (exec_cases _ _ _ _ _ _ Hexec)
    as [[-> _]|[(key & v & _ & _ & -> & _)|(b & _ & _ & [[-> _]|[-> _]] & _)]].
  - unfold well_kept. auto.
  - unfold well_kept, after_set.
    cbn [_data _dirty _home_config _project_config set_data set_dirty].
    repeat split; try apply nodup_set; try assumption.
    intros k w. destruct (String.eqb_spec k key) as [->|Hne].
    + rewrite !get_set_same. auto.
    + rewrite !get_set_other by exact Hne. apply Hvis.
  - unfold well_kept, merged, set_target_config, target_config.
    destruct b;
      cbn [_data _dirty _home_config _project_config set_project_config
           set_home_config];
      repeat split; try apply nodup_update; assumption.
  - unfold well_kept, merged, set_target_config, target_config.
    destruct b;
      cbn [_data _dirty _home_config _project_config set_project_config
           set_home_config set_dirty];
      repeat split; try apply nodup_update; try assumption;
      try constructor; intros k v [=].
Qed.

Lemma reachable_well_kept c : reachable c -> well_kept c.
Proof.
  induction 1 as [root fs c Hinit|c op fs e c' fs' _ IH Hexec].
  - exact (init_well_kept _ _ _ Hinit).
  - exact (exec_well_kept _ _ _ _ _ _ IH Hexec).
Qed.

(** ** Setting and reading *)

(** X1. After [config[key] = v] on a registry key, reading [key] returns the
    stored value, every other key reads as before, iteration keeps its order
    with [key] added at the end when it is new, and the length grows by one
    exactly when [key] is new. *)
Theorem X1_set_then_read key v c fs :
  contains key CONFIG_ITEMS = true ->
  exists c',
    __setitem__ key v (c, fs) = (Return tt, (c', fs))
    /\ __getitem__ key (c', fs) = (Return (coerce v), (c', fs))
    /\ (forall k, k <> key ->
          fst (__getitem__ k (c', fs)) = fst (__getitem__ k (c, fs)))
    /\ fst (__iter__ (c', fs))
       = Return (if contains key (_data c) then keys (_data c)
                 else keys (_data c) ++ [key])
    /\ fst (__len__ (c', fs))
       = Return (if contains key (_data c) then length (_data c)
                 else S (length (_data c))).
Proof.
  intros Hk. exists (after_set key v c).
  split; [now apply setitem_known|].
  unfold __getitem__, __iter__, __len__, bind, self, ret, raise, after_set.
  cbn [fst snd _data set_data set_dirty].
  rewrite get_set_same. split; [reflexivity|]. split.
  { intros k Hne. rewrite get_set_other by exact Hne.
    now destruct (get k (_data c)). }
  destruct (contains key (_data c)) eqn:Ec.
  - rewrite <- (length_map fst (set _ _ _)), <- (length_map fst (_data c)).
    fold (keys (set key (coerce v) (_data c))). fold (keys (_data c)).
    now rewrite set_present.
  - rewrite set_absent by exact Ec. unfold keys.
    rewrite map_app, length_app. cbn [map fst length]. split; [reflexivity|].
    f_equal. lia.
Qed.

(** X2. Two assignments to one key leave the object as the second alone does,
    whatever the key: the last write wins, and an unknown key raises the same
    error either way. *)
Theorem X2_last_write_wins key v1 v2 w :
  (__setitem__ key v1 ;;; __setitem__ key v2) w = __setitem__ key v2 w.
Proof.
  destruct w as [c fs]. unfold bind.
  destruct (contains key CONFIG_ITEMS) eqn:Ek.
  - rewrite !setitem_known by exact Ek. f_equal. f_equal.
    unfold after_set. cbn. now rewrite !set_set.
  - now rewrite !setitem_unknown by exact Ek.
Qed.

(** ** Invariants of the objects a program can reach *)

(** X3. On every reachable object a key pending in [_dirty] reads, through
    [__getitem__], as the pending value: the merged view is never behind the
    unsaved changes. *)
Theorem X3_pending_is_visible c fs k v :
  reachable c ->
  get k (_dirty c) = Some v ->
  __getitem__ k (c, fs) = (Return v, (c, fs)).
Proof.
  intros Hr Hk. destruct (reachable_well_kept c Hr) as (_ & _ & _ & _ & Hvis).
  unfold __getitem__, bind, self, ret. cbn. now rewrite (Hvis k v Hk).
Qed.

(** X4. On every reachable object iteration yields each key once, [len] is
    the number of keys iterated, and the keys iterated are exactly the keys
    [__getitem__] returns a value for. *)
Theorem X4_iteration c fs :
  reachable c ->
  exists ks,
    __iter__ (c, fs) = (Return ks, (c, fs))
    /\ NoDup ks
    /\ __len__ (c, fs) = (Return (length ks), (c, fs))
    /\ forall k, In k ks <-> exists v, __getitem__ k (c, fs) = (Return v, (c, fs)).
Proof.
  intros Hr. destruct (reachable_well_kept c Hr) as (Hdata & _).
  exists (keys (_data c)). split; [reflexivity|]. split; [exact Hdata|].
  split.
  { unfold __len__, bind, self, ret, keys. cbn. now rewrite length_map. }
  intros k. unfold __getitem__, bind, self, ret, raise. cbn.
  destruct (get k (_data c)) as [v|] eqn:E.
  - split; [eauto|]. intros _.
    apply contains_true_iff. unfold contains. now rewrite E.
  - apply get_none_iff in E. split; [tauto|]. intros (v & [=]).
Qed.

(** X5. No call removes a key from the merged view; so on every reachable
    object the keys of the defaults, [cache_dir] and [python.use_pyenv]
    among them, can always be read. *)
Theorem X5_keys_stay :
  (forall op c fs e c' fs' k,
     exec dumps op (c, fs) = (e, (c', fs')) ->
     In k (keys (_data c)) -> In k (keys (_data c')))
  /\ (forall c fs k,
        reachable c ->
        In k ("cache_dir" :: "python.use_pyenv" :: keys pypi_source) ->
        exists v, __getitem__ k (c, fs) = (Return v, (c, fs))).
Proof.
  assert (Hstep : forall op c fs e c' fs' k,
             exec dumps op (c, fs) = (e, (c', fs')) ->
             In k (keys (_data c)) -> In k (keys (_data c'))).
  { intros op c fs e c' fs' k Hexec Hin.
    destruct (exec_cases _ _ _ _ _ _ Hexec)
      as [[-> _]|[(key & v & _ & _ & -> & _)|(b & _ & _ & [[-> _]|[-> _]] & _)]];
      try exact Hin; try (destruct b; exact Hin).
    unfold after_set. cbn. apply keys_set. now right. }
  split; [exact Hstep|].
  intros c fs k Hr Hk.
  enough (Hin : In k (keys (_data c))).
  { apply contains_true_iff in Hin. unfold contains in Hin.
    unfold __getitem__, bind, self, ret. cbn.
    destruct (get k (_data c)) as [v|]; [eauto | discriminate]. }
  induction Hr as [root fs0 c Hinit|c op fs0 e c' fs' _ IH Hexec].
  - destruct (init_inv _ _ _ _ _ _ _ Hinit) as (_ & _ & ->). cbn.
    apply in_keys_update. left. apply in_keys_update. left.
    unfold DEFAULT_CONFIG. apply in_keys_update. cbn in *. tauto.
  - exact (Hstep _ _ _ _ _ _ k Hexec IH).
Qed.


(** ** Saving again *)

Lemma merged_merged b c :
  NoDup (keys (_dirty c)) -> merged b (merged b c) = merged b c.
Proof.
  intros Hnd. unfold merged, set_target_config, target_config.
  destruct b;
    cbn [project_root _data _dirty _project_config_file _home_config_file
         _project_config _home_config set_project_config set_home_config];
    now rewrite update_twice.
Qed.

(** On an object whose layer has taken [_dirty] in already, a [save_config]
    that gets past the guard does what it does on the object before. *)
Lemma save_merged b c fs ks :
  NoDup (keys (_dirty c)) ->
  not_for_project (keys (_dirty c)) = Return ks ->
  negb (Nat.eqb (length ks) 0) && b = false ->
  save b (merged b c, fs) = save b (c, fs).
Proof.
  intros Hnd Eks Eg.
  assert (Hd : _dirty (merged b c) = _dirty c) by now destruct b.
  assert (Hf : target_file b (merged b c) = target_file b c) by now destruct b.
  assert (Ht : target_config b (merged b c)
               = update (target_config b c) (_dirty c)) by now destruct b.
  rewrite (save_config_unfold dumps b c fs ks Eks).
  rewrite <- Hd in Eks.
  rewrite (save_config_unfold dumps b (merged b c) fs ks Eks), Eg.
  cbv zeta. rewrite Hd, Hf, Ht, update_twice by exact Hnd.
  fold (merged b c).
  replace (set_target_config b (update (target_config b c) (_dirty c)) (merged b c))
    with (merged b c); [reflexivity|].
  rewrite <- (merged_merged b c Hnd) at 1. unfold merged at 1.
  now rewrite Ht, Hd, update_twice.
Qed.

(** X7. A [save_config] that raises keeps [_dirty] and the merged view, and
    saving again, on whatever the file system then is, goes as if the failed
    attempt had not been made: same outcome, same object, same files. *)
Theorem X7_failed_save_retry b c fs e c1 fs1 fs2 :
  reachable c ->
  save b (c, fs) = (Raise e, (c1, fs1)) ->
  _dirty c1 = _dirty c /\ _data c1 = _data c
  /\ save b (c1, fs2) = save b (c, fs2).
Proof.
  intros Hr Hsave.
  destruct (reachable_well_kept c Hr) as (_ & Hnd & _).
  destruct (reachable_invariant _ _ _ _ _ _ Hr) as [Hd _].
  assert (Eks := not_for_project_registered _ Hd).
  rewrite (save_config_unfold dumps b c fs _ Eks) in Hsave.
  destruct (negb _ && b) eqn:Eg; [now injection Hsave as <- <- <-|].
  cbv zeta in Hsave. fold (merged b c) in Hsave.
  assert (Hc1 : c1 = merged b c).
  { destruct (mkdir_exist_ok (parent (target_file b c)) fs) as [[[]|e1] fs1'];
      [|now injection Hsave as <- <- <-].
    destruct (unflatten (update (target_config b c) (_dirty c))) as [toml|e2];
      [|now injection Hsave as <- <- <-].
    destruct (write_text (target_file b c) (dumps toml) fs1') as [[[]|e3] fs2'];
      [discriminate | now injection Hsave as <- <- <-]. }
  subst c1. split; [now destruct b|]. split; [now destruct b|].
  exact (save_merged b c fs2 _ Hnd Eks Eg).
Qed.

(** X8. After a [save_config] that returned, the same [save_config] returns
    again and changes nothing: the object stays, and every path holds what
    it held. *)
Theorem X8_save_again b c fs c' fs' :
  reachable c ->
  save b (c, fs) = (Return tt, (c', fs')) ->
  exists fs'',
    save b (c', fs') = (Return tt, (c', fs''))
    /\ forall q, fs'' q = fs' q.
Proof.
  intros Hr Hsave.
  destruct (reachable_invariant _ _ _ _ _ _ Hr) as [Hd _].
  destruct (save_config_returns _ _ _ _ _ _ Hd Hsave)
    as (fs1 & toml & _ & Hm & Hu & Hw & ->).
  destruct (mkdir_frame _ _ _ _ Hm) as (_ & _ & Hdir). specialize (Hdir eq_refl).
  destruct (write_text_inv _ _ _ _ _ Hw) as [Hfs' _]. specialize (Hfs' eq_refl).
  assert (Hne : parent (target_file b c) <> target_file b c).
  { intros E. unfold write_text in Hw. rewrite <- E, Hdir in Hw. discriminate. }
  assert (Hpar : fs' (parent (target_file b c)) = Some Dir).
  { rewrite Hfs', put_other by exact Hne. exact Hdir. }
  assert (Hfile : fs' (target_file b c) = Some (File (dumps toml))).
  { rewrite Hfs'. apply put_same. }
  exists (put (target_file b c) (File (dumps toml)) fs'). split.
  - fold (merged b c).
    rewrite (save_config_unfold dumps b (set_dirty [] (merged b c)) fs' []
               eq_refl).
    cbn [length Nat.eqb negb andb]. cbv zeta.
    assert (Hf : target_file b (set_dirty [] (merged b c)) = target_file b c)
      by now destruct b.
    assert (Ht : target_config b (set_dirty [] (merged b c))
                 = update (target_config b c) (_dirty c)) by now destruct b.
    rewrite Hf, Ht. cbn [_dirty set_dirty update fold_left].
    unfold mkdir_exist_ok. rewrite Hpar, Hu.
    unfold write_text. rewrite Hfile, Hpar.
    f_equal. f_equal. now destruct b.
  - intros q. destruct (path_eqb_spec q (target_file b c)) as [->|Hq].
    + now rewrite put_same.
    + now rewrite put_other.
Qed.

(** ** Construction that fails *)



End ClassFacts.

(** ** What the dotted-key splitting builds *)

Lemma split_dot_parts s : Forall (fun p => dot_free p = true) (split_dot s).
Proof.
  induction s as [|c s IH]; cbn [split_dot].
  - repeat constructor.
  - destruct (Ascii.eqb c dot) eqn:Ec.
    + constructor; [reflexivity | exact IH].
    + destruct (split_dot s) as [|h t]; [repeat constructor; cbn; now rewrite Ec|].
      inversion IH as [|? ? Hh Ht]; subst.
      constructor; [|exact Ht]. cbn [dot_free]. now rewrite Ec, Hh.
Qed.

Lemma split_dot_last s :
  Forall (fun p => dot_free p = true) (removelast (split_dot s))
  /\ dot_free (List.last (split_dot s) EmptyString) = true.
Proof.
  assert (H := split_dot_parts s).
  rewrite (app_removelast_last EmptyString (split_dot_not_nil s)) in H.
  apply Forall_app in H. destruct H as [H1 H2].
  split; [exact H1|]. now inversion H2.
Qed.

Lemma plain_cons k d rest :
  dot_free k = true -> ~ In k (keys rest) -> plain_item d -> plain rest ->
  plain ((k, d) :: rest).
Proof.
  intros Hk Hfresh Hd Hrest. destruct d as [x|sub].
  - now constructor.
  - destruct Hd. now constructor.
Qed.

Lemma plain_inv k d rest :
  plain ((k, d) :: rest) ->
  dot_free k = true /\ ~ In k (keys rest) /\ plain_item d /\ plain rest.
Proof. inversion 1; subst; cbn; auto. Qed.

Lemma plain_set k d T :
  dot_free k = true -> plain_item d -> plain T -> plain (set k d T).
Proof.
  intros Hk Hd. induction T as [|[k' d'] T IH]; intros HT; cbn [set].
  - apply plain_cons; auto.
  - apply plain_inv in HT. destruct HT as (Hk' & Hfresh & Hd' & HT).
    destruct (String.eqb_spec k k') as [->|Hne].
    + now apply plain_cons.
    + apply plain_cons; auto.
      rewrite keys_set. intros [E|Hin]; [now apply Hne | now apply Hfresh].
Qed.

Lemma plain_get k d T : plain T -> get k T = Some d -> plain_item d.
Proof.
  induction T as [|[k' d'] T IH]; intros HT; cbn [get]; [discriminate|].
  apply plain_inv in HT. destruct HT as (_ & _ & Hd' & HT).
  destruct (String.eqb k k'); [now intros [= <-] | now apply IH].
Qed.

Lemma set_not_nil {V : Type} k (v : V) d : set k v d <> [].
Proof. destruct d as [|[k' v'] d]; cbn; [|destruct (String.eqb k k')]; discriminate. Qed.

Lemma assign_path_plain parts last v :
  Forall (fun p => dot_free p = true) parts -> dot_free last = true ->
  forall T T',
    plain T -> assign_path parts last v T = Return T' ->
    plain T' /\ T' <> [].
Proof.
  intros Hparts Hlast. induction Hparts as [|part parts Hpart _ IH];
    intros T T' HT; cbn [assign_path].
  - intros [= <-]. split; [|apply set_not_nil]. now apply plain_set.
  - assert (Hsub : forall sub,
               plain sub ->
               obind (assign_path parts last v sub)
                     (fun sub' => Return (set part (Table sub') T)) = Return T' ->
               plain T' /\ T' <> []).
    { intros sub Hs. destruct (assign_path parts last v sub) as [sub'|e] eqn:E;
        cbn [obind]; [|discriminate].
      intros [= <-]. destruct (IH sub sub' Hs E) as [Hp Hne].
      split; [|apply set_not_nil]. apply plain_set; cbn; auto. }
    destruct (get part T) as [[x|sub]|] eqn:Eget; [discriminate| |].
    + apply Hsub. now destruct (plain_get part (Table sub) T HT Eget).
    + apply Hsub. constructor.
Qed.

Lemma unflatten_from_plain data :
  forall T T', plain T -> unflatten_from T data = Return T' -> plain T'.
Proof.
  induction data as [|[key v] data IH]; intros T T' HT; cbn [unflatten_from].
  - now intros [= <-].
  - unfold assign_key. cbn [fst snd].
    destruct (split_dot_last key) as [Hparts Hlast].
    destruct (assign_path _ _ v T) as [T1|e] eqn:E; cbn [obind]; [|discriminate].
    apply IH. now destruct (assign_path_plain _ _ v Hparts Hlast T T1 HT E).
Qed.

(** X10. Whatever the dotted-key splitting returns, for any flat mapping, is
    a plain document: dot-free keys, no key twice, no empty table.  So
    flattening it and splitting again gives the same document: what
    [save_config] writes is what loading and saving again writes. *)
Theorem X10_unflatten_is_plain d t :
  unflatten d = Return t ->
  plain t /\ unflatten (get_item t) = Return t.
Proof.
  intros H. assert (Hp : plain t).
  { apply (unflatten_from_plain d [] t); [constructor | exact H]. }
  split; [exact Hp | now apply plain_round_trip].
Qed.

(** ** From a flat mapping to a document and back *)

Lemma join_split s : join "." (split_dot s) = s.
Proof.
  induction s as [|c s IH]; [reflexivity|]. cbn [split_dot].
  assert (Hne := split_dot_not_nil s).
  destruct (Ascii.eqb_spec c dot) as [->|Hc];
    (destruct (split_dot s) as [|h t]; [congruence|]).
  - rewrite <- IH. reflexivity.
  - rewrite <- IH. now destruct t.
Qed.

Lemma split_dot_inj a b : split_dot a = split_dot b -> a = b.
Proof. intros E. now rewrite <- (join_split a), E, join_split. Qed.

Lemma path_eqb_split a b : path_eqb (split_dot a) (split_dot b) = String.eqb a b.
Proof.
  destruct (path_eqb_spec (split_dot a) (split_dot b)) as [E|Hne];
    destruct (String.eqb_spec a b) as [E'|Hne']; try reflexivity.
  - exfalso. now apply Hne', split_dot_inj.
  - exfalso. apply Hne. now rewrite E'.
Qed.

(** A key whose first part is the dot-free [k] and that has more parts is
    [k], a dot, and the key of the other parts. *)
Lemma split_dot_dotted_inv key k p ps :
  split_dot key = k :: p :: ps ->
  key = dotted k (join "." (p :: ps)).
Proof. intros E. rewrite <- (join_split key), E. reflexivity. Qed.

Lemma get_app {V : Type} k (d1 d2 : dict V) :
  get k (d1 ++ d2)
  = match get k d1 with Some v => Some v | None => get k d2 end.
Proof.
  induction d1 as [|[k' v'] d1 IH]; cbn [app get]; [reflexivity|].
  now destruct (String.eqb k k').
Qed.

Lemma get_prefixed k key es :
  get (dotted k key) (map (prefix_entry k) es) = get key es.
Proof.
  induction es as [|[k' v'] es IH]; cbn [map prefix_entry get fst snd];
    [reflexivity|].
  destruct (String.eqb_spec key k') as [->|Hne].
  - now rewrite String.eqb_refl.
  - destruct (String.eqb_spec (dotted k key) (dotted k k')) as [E|_];
      [|exact IH].
    exfalso. now apply Hne, (dotted_inj k).
Qed.

Lemma get_not_prefixed k key es :
  (forall key', key <> dotted k key') ->
  get key (map (prefix_entry k) es) = None.
Proof.
  intros H. apply get_none_iff. rewrite keys_prefixed, in_map_iff.
  intros (key' & E & _). now apply (H key').
Qed.

Lemma lookup_path_nil p : lookup_path p [] = None.
Proof. now destruct p. Qed.

(** Reading a key of the flat mapping of a plain document is following the
    parts of the key down the document. *)
Lemma get_flat_plain t :
  plain t ->
  forall key, get key (flat_map entries_of t) = lookup_path (split_dot key) t.
Proof.
  induction 1 as [|k x rest Hk Hfresh _ IH|k sub rest Hk Hfresh _ Hsub IHsub _ IH];
    intros key.
  - cbn. now rewrite lookup_path_nil.
  - cbn [flat_map]. change (entries_of (k, Leaf x)) with [(k, x)].
    cbn [app get]. destruct (String.eqb_spec key k) as [->|Hne].
    + rewrite (split_dot_dot_free k Hk). cbn [lookup_path get].
      now rewrite String.eqb_refl.
    + rewrite IH. assert (Hnil := split_dot_not_nil key).
      destruct (split_dot key) as [|q qs] eqn:Es; [congruence|].
      cbn [lookup_path get]. destruct (String.eqb_spec q k) as [->|Hq];
        [|reflexivity].
      apply get_none_iff in Hfresh. rewrite Hfresh.
      destruct qs; [|reflexivity].
      exfalso. apply Hne. rewrite <- (join_split key), Es. reflexivity.
  - cbn [flat_map].
    change (entries_of (k, Table sub)) with (map (prefix_entry k) (get_item sub)).
    rewrite get_app, (get_item_plain sub Hsub), IH.
    assert (Hnil := split_dot_not_nil key).
    destruct (split_dot key) as [|q qs] eqn:Es; [congruence|].
    cbn [lookup_path get]. destruct (String.eqb_spec q k) as [->|Hq].
    + apply get_none_iff in Hfresh. rewrite Hfresh.
      destruct qs as [|p ps].
      * assert (E : key = k) by (rewrite <- (join_split key), Es; reflexivity).
        subst key. rewrite get_not_prefixed; [reflexivity|].
        intros key' E. symmetry in E. now apply (dotted_not_dot_free k key' Hk).
      * rewrite (split_dot_dotted_inv key k p ps Es), get_prefixed, IHsub.
        assert (E : split_dot (join "." (p :: ps)) = p :: ps).
        { assert (E' := Es).
          rewrite (split_dot_dotted_inv key k p ps Es) in E'.
          rewrite (split_dot_dotted k _ Hk) in E'. now injection E'. }
        rewrite E. now destruct (lookup_path (p :: ps) sub).
    + rewrite get_not_prefixed; [reflexivity|].
      intros key' E. apply Hq. rewrite E in Es.
      rewrite (split_dot_dotted k key' Hk) in Es. now injection Es.
Qed.

(** Where [assign_path] returned, the document reads as before except at the
    assigned path, which holds the value, and below it, where nothing is. *)
Lemma assign_path_lookup parts last v :
  forall T T',
    assign_path parts last v T = Return T' ->
    forall q,
      lookup_path q T'
      = if path_eqb q (parts ++ [last]) then Some v
        else if strict_prefix (parts ++ [last]) q then None
        else lookup_path q T.
Proof.
  induction parts as [|part parts IH]; intros T T'; cbn [assign_path app].
  - intros [= <-] [|k q]; [reflexivity|].
    cbn [lookup_path path_eqb strict_prefix].
    rewrite (String.eqb_sym last k).
    destruct (String.eqb_spec k last) as [->|Hne]; cbn [andb].
    + rewrite get_set_same. now destruct q.
    + now rewrite get_set_other.
  - assert (Hsub : forall sub,
               (forall q, lookup_path (part :: q) T = lookup_path q sub) ->
               obind (assign_path parts last v sub)
                     (fun sub' => Return (set part (Table sub') T)) = Return T' ->
               forall q,
                 lookup_path q T'
                 = if path_eqb q (part :: parts ++ [last]) then Some v
                   else if strict_prefix (part :: parts ++ [last]) q then None
                   else lookup_path q T).
    { intros sub HT. destruct (assign_path parts last v sub) as [sub'|e] eqn:E;
        cbn [obind]; [|discriminate].
      intros [= <-] [|k q]; [reflexivity|].
      cbn [path_eqb strict_prefix]. rewrite (String.eqb_sym part k).
      destruct (String.eqb_spec k part) as [->|Hne]; cbn [andb].
      - rewrite HT, <- (IH sub sub' E q). cbn [lookup_path].
        now rewrite get_set_same.
      - cbn [lookup_path]. now rewrite get_set_other. }
    destruct (get part T) as [[x|sub]|] eqn:Eget; [discriminate| |].
    + apply Hsub. intros q. cbn [lookup_path]. now rewrite Eget.
    + apply Hsub. intros q. cbn [lookup_path].
      now rewrite Eget, lookup_path_nil.
Qed.

Lemma distinct_nodup l : distinct l = true -> NoDup l.
Proof.
  induction l as [|k l IH]; intros H; [constructor|].
  apply distinct_cons in H. destruct H as [Hk Hl]. constructor; auto.
Qed.

(** Reading the document built from a flat mapping without repeated keys
    and without a key that starts another. *)
Lemma unflatten_from_lookup d :
  forall T T',
    NoDup (keys d) ->
    no_prefix_pairs (map split_dot (keys d)) = true ->
    unflatten_from T d = Return T' ->
    forall key,
      lookup_path (split_dot key) T'
      = match get key d with
        | Some v => Some v
        | None =>
            if existsb (fun k' => strict_prefix (split_dot k') (split_dot key))
                 (keys d)
            then None
            else lookup_path (split_dot key) T
        end.
Proof.
  induction d as [|[k1 v1] d IH]; intros T T' Hnd Hpf; cbn [unflatten_from].
  - now intros [= <-] key.
  - cbn [keys map fst no_prefix_pairs] in Hnd, Hpf.
    inversion Hnd as [|? ? Hk1 Hnd']; subst.
    apply andb_true_iff in Hpf. destruct Hpf as [Hk1pf Hpf].
    unfold assign_key. cbn [fst snd].
    destruct (assign_path _ _ v1 T) as [T1|e] eqn:E; cbn [obind]; [|discriminate].
    intros Hrest key.
    rewrite (IH T1 T' Hnd' Hpf Hrest key).
    rewrite (assign_path_lookup _ _ v1 T T1 E (split_dot key)).
    rewrite <- (app_removelast_last EmptyString (split_dot_not_nil k1)).
    rewrite path_eqb_split. cbn [get keys map fst existsb].
    destruct (String.eqb_spec key k1) as [->|Hne].
    + apply get_none_iff in Hk1. rewrite Hk1.
      replace (existsb _ (keys d)) with false; [reflexivity|].
      symmetry. apply not_true_is_false. intros Hex.
      apply existsb_exists in Hex. destruct Hex as (k' & Hin & Hpre).
      rewrite forallb_forall in Hk1pf.
      assert (Hin' : In (split_dot k') (map split_dot (keys d)))
        by now apply in_map.
      apply Hk1pf, andb_true_iff in Hin'. destruct Hin' as [_ Hin'].
      apply negb_true_iff in Hin'. congruence.
    + destruct (get key d); [reflexivity|].
      destruct (strict_prefix (split_dot k1) (split_dot key)); cbn [orb];
        [now destruct (existsb _ (keys d)) | reflexivity].
Qed.

(** The flat mapping read back from the document built from [d] holds what
    [d] holds, key by key. *)
Lemma flat_round_trip d t :
  NoDup (keys d) -> prefix_free d = true ->
  unflatten d = Return t ->
  forall key, get key (get_item t) = get key d.
Proof.
  intros Hd Hpf Hu key.
  assert (Hp : plain t).
  { apply (unflatten_from_plain d [] t); [constructor | exact Hu]. }
  rewrite (get_item_plain t Hp), (get_flat_plain t Hp).
  rewrite (unflatten_from_lookup d [] t Hd Hpf Hu key).
  rewrite lookup_path_nil. destruct (get key d); [reflexivity|].
  now destruct (existsb _ (keys d)).
Qed.

Lemma same_keys_same_length {V : Type} (d1 d2 : dict V) :
  NoDup (keys d1) -> NoDup (keys d2) ->
  (forall k, get k d1 = get k d2) -> length d1 = length d2.
Proof.
  intros H1 H2 E.
  assert (Hin : forall d d' : dict V,
             (forall k, get k d = get k d') ->
             forall k, In k (keys d) -> In k (keys d')).
  { intros d d' Ed k Hk.
    destruct (in_dec string_dec k (keys d')) as [Hy|Hn]; [exact Hy|].
    exfalso. apply get_none_iff in Hn. rewrite <- Ed in Hn.
    now apply get_none_iff in Hn. }
  rewrite <- (length_map fst d1), <- (length_map fst d2).
  apply Nat.le_antisymm; apply NoDup_incl_length; try assumption.
  - exact (Hin d1 d2 E).
  - intros k. apply (Hin d2 d1). intros k'. symmetry. apply E.
Qed.

(** X11. A flat mapping in which no key is the start of another converts to
    nested form, and flattening the result gives back the mapping: as many
    entries, and the same value under every key. *)
Theorem X11_flat_round_trip d :
  distinct (keys d) = true -> prefix_free d = true ->
  exists t,
    unflatten d = Return t
    /\ length (get_item t) = length d
    /\ forall key, get key (get_item t) = get key d.
Proof.
  intros Hd Hpf. destruct (unflatten_total d Hpf) as (t & Hu).
  exists t. split; [exact Hu|].
  assert (Hget := flat_round_trip d t (distinct_nodup _ Hd) Hpf Hu).
  split; [|exact Hget].
  apply same_keys_same_length;
    [apply nodup_get_item | now apply distinct_nodup | exact Hget].
Qed.

(** ** What is saved is what is loaded *)

Section Persisted.

Variable home : path.
Variable user_cache_dir : string.
Variable pypi_source : dict value.
Variable parse : string -> option table.
Variable dumps : table -> string.

Local Abbreviation DEFAULT := (DEFAULT_CONFIG user_cache_dir pypi_source).
Local Abbreviation init := (__init__ home user_cache_dir pypi_source parse).
Local Abbreviation load := (load_config parse).
Local Abbreviation save := (save_config dumps).
Local Abbreviation reachable :=
  (reachable home user_cache_dir pypi_source parse dumps).

(** [load_config] looks at the regular file at its path and at nothing
    else. *)
Lemma load_by_text fs fs' p :
  file_text fs p = file_text fs' p -> load fs p = load fs' p.
Proof.
  unfold load_config, is_file, read_text, file_text.
  destruct (fs p) as [[t|]|]; destruct (fs' p) as [[t'|]|];
    cbn [negb obind]; intros [=]; subst; reflexivity.
Qed.





(** X14. The constructor reads the regular files at its two paths and
    nothing else: on two file systems that hold the same text, or no regular
    file, at the project file and at the home file, it gives the same
    result. *)
Theorem X14_init_reads_two_files root fs fs' :
  file_text fs (child root ".pdm.toml") = file_text fs' (child root ".pdm.toml") ->
  file_text fs (child (HOME_CONFIG home) "config.toml")
  = file_text fs' (child (HOME_CONFIG home) "config.toml") ->
  init root fs = init root fs'.
Proof.
  intros Hp Hh. unfold __init__.
  now rewrite (load_by_text fs fs' _ Hp), (load_by_text fs fs' _ Hh).
Qed.

(** X15. With nothing pending, [save_config] leaves the object as it is,
    whether it returns or raises: it can only rewrite the target file. *)
Theorem X15_save_nothing_pending b c fs r c' fs' :
  _dirty c = [] ->
  save b (c, fs) = (r, (c', fs')) ->
  c' = c
  /\ forall q, q <> target_file b c -> file_text fs' q = file_text fs q.
Proof.
  intros Hd Hsave.
  assert (Hm : merged b c = c).
  { unfold merged. rewrite Hd. destruct c, b; reflexivity. }
  assert (Hc : set_dirty [] c = c).
  { rewrite <- Hd. now destruct c. }
  destruct (exec_cases dumps (Save b) c fs
              (match r with Return _ => None | Raise e => Some e end) c' fs')
    as [[-> ->]|[(key & v & [=] & _)|(b' & [= <-] & _ & Hc' & Hframe)]].
  - cbn [exec]. rewrite Hsave. now destruct r.
  - auto.
  - split; [|exact Hframe].
    destruct Hc' as [[-> _]|[-> _]]; now rewrite Hm.
Qed.

End Persisted.

(** ** The further properties at work *)

Section InstalledMore.

Local Abbreviation init :=
  (__init__ Demo.home Demo.user_cache_dir Demo.pypi_source Demo.parse).
Local Abbreviation save := (save_config Demo.dumps).
Local Abbreviation reachable_back :=
  (reachable Demo.home Demo.user_cache_dir Demo.pypi_source Saved.parse Demo.dumps).
Local Abbreviation reachable :=
  (reachable Demo.home Demo.user_cache_dir Demo.pypi_source Demo.parse Demo.dumps).


Lemma save_python_path :
  save true (Demo.python_path_set, Demo.fresh_fs)
  = (Return tt, (Demo.python_path_saved, Saved.fs)).
Proof. reflexivity. Qed.

(** X1: [python.path] is new to the object without configuration files. *)
Lemma X1_set_then_read_witness :
  exists c',
    __setitem__ "python.path" (VStr "/usr/bin/python3")
      (Demo.fresh_config, Demo.fresh_fs) = (Return tt, (c', Demo.fresh_fs))
    /\ __getitem__ "python.path" (c', Demo.fresh_fs)
       = (Return (VStr "/usr/bin/python3"), (c', Demo.fresh_fs))
    /\ fst (__iter__ (c', Demo.fresh_fs))
       = Return ["cache_dir"; "python.use_pyenv"; "pypi.url"; "pypi.verify_ssl";
                 "python.path"]
    /\ fst (__len__ (c', Demo.fresh_fs)) = Return 5.
Proof.
  destruct (X1_set_then_read "python.path" (VStr "/usr/bin/python3")
              Demo.fresh_config Demo.fresh_fs eq_refl)
    as (c' & Hset & Hget & _ & Hiter & Hlen).
  exists c'. repeat split; assumption.
Defined.

(** X3: the pending [cache_dir] is what the object reads. *)
Lemma X3_pending_is_visible_witness :
  __getitem__ "cache_dir" (Demo.cache_dir_set, Demo.fresh_fs)
  = (Return (VStr "/tmp/x"), (Demo.cache_dir_set, Demo.fresh_fs)).
Proof.
  exact (X3_pending_is_visible Demo.home Demo.user_cache_dir Demo.pypi_source
           Demo.parse Demo.dumps Demo.cache_dir_set Demo.fresh_fs
           "cache_dir" (VStr "/tmp/x") reachable_cache_dir_set eq_refl).
Defined.

(** X4: the four defaults, each once. *)
Lemma X4_iteration_witness :
  exists ks,
    __iter__ (Demo.fresh_config, Demo.fresh_fs)
    = (Return ks, (Demo.fresh_config, Demo.fresh_fs))
    /\ NoDup ks
    /\ __len__ (Demo.fresh_config, Demo.fresh_fs)
       = (Return (length ks), (Demo.fresh_config, Demo.fresh_fs)).
Proof.
  destruct (X4_iteration Demo.home Demo.user_cache_dir Demo.pypi_source
              Demo.parse Demo.dumps Demo.fresh_config Demo.fresh_fs
              reachable_fresh) as (ks & Hiter & Hnd & Hlen & _).
  exists ks. repeat split; assumption.
Defined.


(** X7: the home save that failed below a regular file [~/.pdm] is made
    again once the directory is there. *)
Lemma X7_failed_save_retry_witness :
  save false
    (set_home_config [("cache_dir", VStr "/tmp/x")] Demo.cache_dir_set,
     Demo.fresh_fs)
  = save false (Demo.cache_dir_set, Demo.fresh_fs).
Proof.
  destruct (X7_failed_save_retry Demo.home Demo.user_cache_dir Demo.pypi_source
              Demo.parse Demo.dumps false Demo.cache_dir_set Demo.blocked_fs
              NotADirectoryError
              (set_home_config [("cache_dir", VStr "/tmp/x")] Demo.cache_dir_set)
              Demo.blocked_fs Demo.fresh_fs reachable_cache_dir_set eq_refl)
    as (_ & _ & H).
  exact H.
Defined.

(** X8: saving [python.path] to the project a second time. *)
Lemma X8_save_again_witness :
  exists fs'',
    save true (Demo.python_path_saved, Saved.fs)
    = (Return tt, (Demo.python_path_saved, fs''))
    /\ forall q, fs'' q = Saved.fs q.
Proof.
  exact (X8_save_again Demo.home Demo.user_cache_dir Demo.pypi_source
           Demo.parse Demo.dumps true Demo.python_path_set Demo.fresh_fs
           Demo.python_path_saved Saved.fs reachable_python_path_set
           save_python_path).
Defined.

(** X10: the document built from the flat mapping of two sections. *)
Lemma X10_unflatten_is_plain_witness :
  plain Demo.nested /\ unflatten (get_item Demo.nested) = Return Demo.nested.
Proof.
  exact (X10_unflatten_is_plain Demo.nested_flat Demo.nested eq_refl).
Defined.

(** X11: the keys of [pypi] come back next to each other, the mapping is the
    same. *)
Lemma X11_flat_round_trip_witness :
  exists t,
    unflatten Saved.scattered = Return t
    /\ length (get_item t) = 3
    /\ forall key, get key (get_item t) = get key Saved.scattered.
Proof.
  exact (X11_flat_round_trip Saved.scattered eq_refl eq_refl).
Defined.




(** X14: a file elsewhere does not change what is constructed. *)
Lemma X14_init_reads_two_files_witness :
  init Demo.root Demo.documented_fs = init Demo.root Demo.fresh_fs.
Proof.
  exact (X14_init_reads_two_files Demo.home Demo.user_cache_dir Demo.pypi_source
           Demo.parse Demo.root Demo.documented_fs Demo.fresh_fs
           eq_refl eq_refl).
Defined.

(** X15: a home save with nothing pending fails below the regular file
    [~/.pdm] and leaves the object alone. *)
Lemma X15_save_nothing_pending_witness :
  save false (Demo.fresh_config, Demo.blocked_fs)
  = (Raise NotADirectoryError, (Demo.fresh_config, Demo.blocked_fs)).
Proof.
  assert (H : save false (Demo.fresh_config, Demo.blocked_fs)
              = (Raise NotADirectoryError, (Demo.fresh_config, Demo.blocked_fs)))
    by reflexivity.
  destruct (X15_save_nothing_pending Demo.dumps false Demo.fresh_config
              Demo.blocked_fs (Raise NotADirectoryError) Demo.fresh_config
              Demo.blocked_fs eq_refl H) as [_ _].
  exact H.
Defined.

(** X5: [python.use_pyenv] is still read after [cache_dir] was set. *)
Lemma X5_keys_stay_witness :
  exists v,
    __getitem__ "python.use_pyenv" (Demo.cache_dir_set, Demo.fresh_fs)
    = (Return v, (Demo.cache_dir_set, Demo.fresh_fs)).
Proof.
  destruct (X5_keys_stay Demo.home Demo.user_cache_dir Demo.pypi_source
              Demo.parse Demo.dumps) as [_ Hread].
  apply (Hread Demo.cache_dir_set Demo.fresh_fs "python.use_pyenv"
           reachable_cache_dir_set).
  right. now left.
Defined.


Example init_reloaded :
  __init__ Demo.home Demo.user_cache_dir Demo.pypi_source Saved.parse
    Demo.root Saved.fs = Return Saved.reloaded.
Proof. reflexivity. Qed.

End InstalledMore.
